(** * FluidSynth voice DSP core: interpolation, resonant filter, pan and sends

    A shallow embedding of [src/fluidsynth/src/fluid_dsp_core.c] (the block
    that fluid_voice.c includes to render one voice for one block) and of
    [fluid_rvoice_get_sample] from [src/src/rvoice/fluid_rvoice.h].

    - [fluid_real_t] is the IEEE-754 binary format the build selects
      (binary32 under WITH_FLOAT, binary64 otherwise); its values are
      [spec_float]s and its operations the correctly rounded ones of the
      Standard Library's [SpecFloat], every operation rounded to the format
      of [fluid_real_t] (no excess precision), round to nearest even.
    - A C array reached through a pointer is the map from its index to its
      cell ([Z -> cell]); a store is a pointwise update.  The code checks
      no bounds, neither does the model.  The buffers are distinct
      objects.  A pointer that may be NULL is an [option].
    - A [for (dsp_i = dsp_start; dsp_i < dsp_end; dsp_i++)] loop is
      [for_range]: the body folded over the successive indices.
    - An [int] is a [Z]; the count of the filter and the index of the
      phase are reduced to 32 bits ([sint32]) where the code decrements or
      increments them.  The loop index runs from [dsp_start] to [dsp_end]
      and needs no reduction.
    - The portable build is modelled (ENABLE_SSE undefined). *)

From Stdlib Require Import ZArith Bool List Lia.
From Stdlib Require Import Strings.Byte.
From Stdlib Require Import SpecFloat.
Import ListNotations.
Local Open Scope Z_scope.

(** ** The numeric type of the build *)

(** The build-time choice of [fluid_real_t]: WITH_FLOAT defined or not. *)
Class build := { WITH_FLOAT : bool }.

Definition float_build : build := {| WITH_FLOAT := true |}.
Definition double_build : build := {| WITH_FLOAT := false |}.

(** IEEE-754 binary32 ([float]) and binary64 ([double]) as SpecFloat
    formats: number of mantissa bits and exponent of infinity. *)
Definition prec32 : Z := 24.
Definition emax32 : Z := 128.
Definition prec64 : Z := 53.
Definition emax64 : Z := 1024.

(** Conversion between floating-point formats (a C cast or an implicit
    conversion on assignment): rounded to nearest even when narrowing,
    exact when widening. *)
Definition SFconvert (prec emax : Z) (x : spec_float) : spec_float :=
  match x with
  | S754_finite s m e => binary_round prec emax s m e
  | _ => x
  end.

(** Conversion of an integer to a floating-point format. *)
Definition SFof_Z (prec emax : Z) (n : Z) : spec_float :=
  binary_normalize prec emax n 0 false.

Section Real.
Context {B : build}.

Definition fluid_real_t : Type := spec_float.

Definition real_prec : Z := if WITH_FLOAT then prec32 else prec64.
Definition real_emax : Z := if WITH_FLOAT then emax32 else emax64.

Definition real_add (x y : fluid_real_t) : fluid_real_t := SFadd real_prec real_emax x y.
Definition real_sub (x y : fluid_real_t) : fluid_real_t := SFsub real_prec real_emax x y.
Definition real_mul (x y : fluid_real_t) : fluid_real_t := SFmul real_prec real_emax x y.

(** An integer operand ([short] sample, [int] constant) converted to
    [fluid_real_t] by the usual arithmetic conversions. *)
Definition real_of_int (n : Z) : fluid_real_t := SFof_Z real_prec real_emax n.

(** [x != 0.0] on [fluid_real_t]: the IEEE comparison, false on the two
    zeros, true on NaN. *)
Definition real_nonzero (x : fluid_real_t) : bool := negb (SFeqb x (S754_zero false)).

(** A value of type [fluid_real_t] stored in a C variable declared [float],
    and read back as a [fluid_real_t]: no change under WITH_FLOAT, rounded
    to binary32 otherwise. *)
Definition store_in_float (x : fluid_real_t) : fluid_real_t :=
  if WITH_FLOAT then x else SFconvert prec64 emax64 (SFconvert prec32 emax32 x).

End Real.

Declare Scope real_scope.
Delimit Scope real_scope with real.
Notation "x [+] y" := (real_add x y) (at level 50, left associativity) : real_scope.
Notation "x [-] y" := (real_sub x y) (at level 50, left associativity) : real_scope.
Notation "x [*] y" := (real_mul x y) (at level 40, left associativity) : real_scope.

(** Floating-point literals used by the code and by the examples. *)
Definition real_zero : spec_float := S754_zero false.
Definition d_one : spec_float := S754_finite false 4503599627370496 (-52).
Definition d_half : spec_float := S754_finite false 4503599627370496 (-53).
Definition f_one : spec_float := S754_finite false 8388608 (-23).

(** ** Machine integers *)

Definition INT_MIN : Z := -2147483648.
Definition INT_MAX : Z := 2147483647.

(** Reduction to [uint32_t] and reinterpretation as [int32_t]. *)
Definition uint32 (z : Z) : Z := z mod 4294967296.
Definition sint32 (z : Z) : Z := (z + 2147483648) mod 4294967296 - 2147483648.

(** ** Loops *)

Fixpoint for_loop {St : Type} (body : Z -> St -> St) (i : Z) (n : nat) (s : St) : St :=
  match n with
  | O => s
  | S n' => for_loop body (i + 1) n' (body i s)
  end.

(** [for (dsp_i = dsp_start; dsp_i < dsp_end; dsp_i++) body]. *)
Definition for_range {St : Type} (dsp_start dsp_end : Z) (body : Z -> St -> St) (s : St) : St :=
  for_loop body dsp_start (Z.to_nat (dsp_end - dsp_start)) s.

(** A store [buf[i] = v]. *)
Definition store {A : Type} (buf : Z -> A) (i : Z) (v : A) : Z -> A :=
  fun j => if j =? i then v else buf j.

(** ** zap_almost_zero (fluid_dsp_core.c, lines 86-91) *)

(** The object representation of a [float], read through an unsigned int
    pointer: sign bit, eight exponent bits, twenty-three fraction bits.
    [spec_float] has a single NaN; it is encoded as the default quiet NaN. *)
Definition float_bits (x : spec_float) : Z :=
  match x with
  | S754_zero s => Z.shiftl (Z.b2z s) 31
  | S754_infinity s => Z.lor (Z.shiftl (Z.b2z s) 31) (Z.shiftl 255 23)
  | S754_nan => Z.lor (Z.shiftl 255 23) (Z.shiftl 1 22)
  | S754_finite s m e =>
      if Zpos m <? 8388608
      then Z.lor (Z.shiftl (Z.b2z s) 31) (Zpos m)
      else Z.lor (Z.shiftl (Z.b2z s) 31)
                 (Z.lor (Z.shiftl (e + 150) 23) (Zpos m - 8388608))
  end.

(** Conversion of a floating-point value to [int] (C99 6.3.1.4): the
    fraction is discarded; the behaviour is undefined ([None]) when the
    integral part is not an [int], and for infinities and NaN. *)
Definition int_of_real (x : spec_float) : option Z :=
  match x with
  | S754_zero _ => Some 0
  | S754_finite s m e =>
      let n := cond_Zopp s (Z.shiftl (Zpos m) e) in
      if (INT_MIN <=? n) && (n <=? INT_MAX) then Some n else None
  | _ => None
  end.

(** [int abs(int)] of <stdlib.h>; undefined on INT_MIN. *)
Definition c_abs (n : Z) : option Z :=
  if n =? INT_MIN then None else Some (Z.abs n).

(** The [double] constant 1e-20 (0x1.79ca10c924223p-67). *)
Definition d_1e_20 : spec_float := S754_finite false 6646139978924579 (-119).

Section Zap.
Context {B : build}.

(** WITH_FLOAT:
    [(((bits of sample) & 0x7f800000) < 0x08000000) ? 0.0f : (sample)].
    Otherwise: [abs(sample) < 1e-20 ? 0 : sample], where [abs] is the integer
    function of <stdlib.h>: its argument is converted to [int], and its
    result back to [double] for the comparison. *)
Definition zap_almost_zero (sample : fluid_real_t) : option fluid_real_t :=
  if WITH_FLOAT then
    Some (if Z.land (float_bits sample) 0x7f800000 <? 0x08000000
          then S754_zero false else sample)
  else
    match int_of_real sample with
    | None => None
    | Some n =>
        match c_abs n with
        | None => None
        | Some a =>
            Some (if SFltb (SFof_Z prec64 emax64 a) d_1e_20
                  then SFof_Z prec64 emax64 0 else sample)
        end
    end.

End Zap.

(** ** The playing pointer (fluid_phase.h) *)

(** Modelled from the spec: fluid_phase.h is not among the sources.  The
    phase is "a fixed-point quantity with an integer component (index into the
    sample table) and a fractional component", whose increment "must correctly
    propagate carry from fractional to integer part".  FluidSynth's layout is
    taken: a signed 32-bit index over an unsigned 32-bit fraction, the two
    forming one 64-bit number. *)
Record fluid_phase_t := { index : Z; fract : Z }.

Definition fluid_phase_index (x : fluid_phase_t) : Z := index x.
Definition fluid_phase_fract (x : fluid_phase_t) : Z := fract x.

(** Modelled from the spec: the row of the coefficient tables selected by
    the fraction, its top eight bits (256 rows). *)
Definition fluid_phase_fract_to_tablerow (x : fluid_phase_t) : Z :=
  Z.shiftr (Z.land (fract x) 0xff000000) 24.

(** Modelled from the spec: [a += b] with the carry of the fractions. *)
Definition fluid_phase_incr (a b : fluid_phase_t) : fluid_phase_t :=
  let f := uint32 (fract a + fract b) in
  {| index := sint32 (index a + index b + (if f <? fract b then 1 else 0));
     fract := f |}.

(** Modelled from the spec: the expression [a.index++], the index before
    the phase moves on by one sample, and the phase after.  The block of the
    specification's scenario (table 10, 20, ..., phase at sample 0,
    increment of one sample) is to give 10, 20, 30, 40: the first output
    reads the sample the phase points at. *)
Definition fluid_phase_index_plusplus (a : fluid_phase_t) : Z * fluid_phase_t :=
  (index a, {| index := sint32 (index a + 1); fract := fract a |}).

(** ** The variables of the block *)

(** A row of an interpolation table ([dsp_coeff->a0] ... [dsp_coeff->a3]). *)
Module Coeff.
Record t := mk { a0 : fluid_real_t; a1 : fluid_real_t; a2 : fluid_real_t; a3 : fluid_real_t }.
End Coeff.

(** The coefficient tables, defined in fluid_voice.c, not among the
    sources: parameters of the model. *)
Record interp_tables := {
  interp_coeff_linear : Z -> Coeff.t;
  interp_coeff : Z -> Coeff.t;
  sinc_table7 : Z -> Z -> fluid_real_t
}.

(** enum fluid_interp of the public header. *)
Definition FLUID_INTERP_NONE : Z := 0.
Definition FLUID_INTERP_LINEAR : Z := 1.
Definition FLUID_INTERP_4THORDER : Z := 4.
Definition FLUID_INTERP_7THORDER : Z := 7.

(** The fields of the voice that the block reads and writes. *)
Record fluid_voice_t := {
  a1 : fluid_real_t;
  a2 : fluid_real_t;
  b02 : fluid_real_t;
  b1 : fluid_real_t;
  filter_coeff_incr_count : Z;
  a1_incr : fluid_real_t;
  a2_incr : fluid_real_t;
  b02_incr : fluid_real_t;
  b1_incr : fluid_real_t;
  pan : fluid_real_t;
  amp_left : fluid_real_t;
  amp_right : fluid_real_t;
  amp_reverb : fluid_real_t;
  amp_chorus : fluid_real_t
}.

(** The variables fluid_voice.c sets before the block and reads after it. *)
Record dsp_vars := mk_dsp_vars {
  dsp_buf : Z -> fluid_real_t;
  dsp_phase : fluid_phase_t;
  dsp_amp : fluid_real_t;
  dsp_hist1 : fluid_real_t;
  dsp_hist2 : fluid_real_t;
  dsp_a1 : fluid_real_t;
  dsp_a2 : fluid_real_t;
  dsp_b02 : fluid_real_t;
  dsp_b1 : fluid_real_t;
  dsp_filter_coeff_incr_count : Z;
  voice : fluid_voice_t;
  dsp_left_buf : Z -> fluid_real_t;
  dsp_right_buf : Z -> fluid_real_t;
  dsp_reverb_buf : option (Z -> fluid_real_t);
  dsp_chorus_buf : option (Z -> fluid_real_t)
}.

(** Assignments to groups of variables. *)
Definition set_interp (s : dsp_vars) (buf : Z -> fluid_real_t) (ph : fluid_phase_t)
    (amp : fluid_real_t) : dsp_vars :=
  mk_dsp_vars buf ph amp (dsp_hist1 s) (dsp_hist2 s) (dsp_a1 s) (dsp_a2 s) (dsp_b02 s)
    (dsp_b1 s) (dsp_filter_coeff_incr_count s) (voice s) (dsp_left_buf s) (dsp_right_buf s)
    (dsp_reverb_buf s) (dsp_chorus_buf s).

Definition set_hist1 (s : dsp_vars) (h1 : fluid_real_t) : dsp_vars :=
  mk_dsp_vars (dsp_buf s) (dsp_phase s) (dsp_amp s) h1 (dsp_hist2 s) (dsp_a1 s) (dsp_a2 s)
    (dsp_b02 s) (dsp_b1 s) (dsp_filter_coeff_incr_count s) (voice s) (dsp_left_buf s)
    (dsp_right_buf s) (dsp_reverb_buf s) (dsp_chorus_buf s).

Definition set_filter (s : dsp_vars) (buf : Z -> fluid_real_t) (h1 h2 : fluid_real_t) : dsp_vars :=
  mk_dsp_vars buf (dsp_phase s) (dsp_amp s) h1 h2 (dsp_a1 s) (dsp_a2 s) (dsp_b02 s)
    (dsp_b1 s) (dsp_filter_coeff_incr_count s) (voice s) (dsp_left_buf s) (dsp_right_buf s)
    (dsp_reverb_buf s) (dsp_chorus_buf s).

Definition set_coeffs (s : dsp_vars) (x1 x2 y02 y1 : fluid_real_t) : dsp_vars :=
  mk_dsp_vars (dsp_buf s) (dsp_phase s) (dsp_amp s) (dsp_hist1 s) (dsp_hist2 s) x1 x2 y02 y1
    (dsp_filter_coeff_incr_count s) (voice s) (dsp_left_buf s) (dsp_right_buf s)
    (dsp_reverb_buf s) (dsp_chorus_buf s).

Definition set_count (s : dsp_vars) (c : Z) : dsp_vars :=
  mk_dsp_vars (dsp_buf s) (dsp_phase s) (dsp_amp s) (dsp_hist1 s) (dsp_hist2 s) (dsp_a1 s)
    (dsp_a2 s) (dsp_b02 s) (dsp_b1 s) c (voice s) (dsp_left_buf s) (dsp_right_buf s)
    (dsp_reverb_buf s) (dsp_chorus_buf s).

Definition set_voice (s : dsp_vars) (v : fluid_voice_t) : dsp_vars :=
  mk_dsp_vars (dsp_buf s) (dsp_phase s) (dsp_amp s) (dsp_hist1 s) (dsp_hist2 s) (dsp_a1 s)
    (dsp_a2 s) (dsp_b02 s) (dsp_b1 s) (dsp_filter_coeff_incr_count s) v (dsp_left_buf s)
    (dsp_right_buf s) (dsp_reverb_buf s) (dsp_chorus_buf s).

Definition set_left (s : dsp_vars) (l : Z -> fluid_real_t) : dsp_vars :=
  mk_dsp_vars (dsp_buf s) (dsp_phase s) (dsp_amp s) (dsp_hist1 s) (dsp_hist2 s) (dsp_a1 s)
    (dsp_a2 s) (dsp_b02 s) (dsp_b1 s) (dsp_filter_coeff_incr_count s) (voice s) l
    (dsp_right_buf s) (dsp_reverb_buf s) (dsp_chorus_buf s).

Definition set_right (s : dsp_vars) (r : Z -> fluid_real_t) : dsp_vars :=
  mk_dsp_vars (dsp_buf s) (dsp_phase s) (dsp_amp s) (dsp_hist1 s) (dsp_hist2 s) (dsp_a1 s)
    (dsp_a2 s) (dsp_b02 s) (dsp_b1 s) (dsp_filter_coeff_incr_count s) (voice s)
    (dsp_left_buf s) r (dsp_reverb_buf s) (dsp_chorus_buf s).

Definition set_reverb (s : dsp_vars) (r : option (Z -> fluid_real_t)) : dsp_vars :=
  mk_dsp_vars (dsp_buf s) (dsp_phase s) (dsp_amp s) (dsp_hist1 s) (dsp_hist2 s) (dsp_a1 s)
    (dsp_a2 s) (dsp_b02 s) (dsp_b1 s) (dsp_filter_coeff_incr_count s) (voice s)
    (dsp_left_buf s) (dsp_right_buf s) r (dsp_chorus_buf s).

Definition set_chorus (s : dsp_vars) (c : option (Z -> fluid_real_t)) : dsp_vars :=
  mk_dsp_vars (dsp_buf s) (dsp_phase s) (dsp_amp s) (dsp_hist1 s) (dsp_hist2 s) (dsp_a1 s)
    (dsp_a2 s) (dsp_b02 s) (dsp_b1 s) (dsp_filter_coeff_incr_count s) (voice s)
    (dsp_left_buf s) (dsp_right_buf s) (dsp_reverb_buf s) c.

(** [voice->a1 = dsp_a1; ...; voice->filter_coeff_incr_count = ...]. *)
Definition persist_filter (v : fluid_voice_t) (s : dsp_vars) : fluid_voice_t :=
  {| a1 := dsp_a1 s; a2 := dsp_a2 s; b02 := dsp_b02 s; b1 := dsp_b1 s;
     filter_coeff_incr_count := dsp_filter_coeff_incr_count s;
     a1_incr := a1_incr v; a2_incr := a2_incr v; b02_incr := b02_incr v;
     b1_incr := b1_incr v; pan := pan v; amp_left := amp_left v;
     amp_right := amp_right v; amp_reverb := amp_reverb v; amp_chorus := amp_chorus v |}.

(** ** Stage 1: interpolation (lines 95-354) *)

Section Interpolation.
Context {B : build}.
Variable T : interp_tables.
Variable dsp_data : Z -> Z.
Variables dsp_start dsp_end : Z.
Variable dsp_phase_incr : fluid_phase_t.
Variable dsp_amp_incr : fluid_real_t.
Local Open Scope real_scope.

(** A sample of the table ([short]) as an operand of a product. *)
Definition sample (i : Z) : fluid_real_t := real_of_int (dsp_data i).

(** Lines 105-109: the special case, no interpolation needed. *)
Definition fast_body (dsp_i : Z) (s : dsp_vars) : dsp_vars :=
  let '(dsp_phase_index, ph) := fluid_phase_index_plusplus (dsp_phase s) in
  set_interp s
    (store (dsp_buf s) dsp_i (dsp_amp s [*] sample dsp_phase_index))
    ph
    (dsp_amp s [+] dsp_amp_incr).

(** Lines 121-128: FLUID_INTERP_NONE. *)
Definition none_body (dsp_i : Z) (s : dsp_vars) : dsp_vars :=
  let dsp_phase_index := fluid_phase_index (dsp_phase s) in
  set_interp s
    (store (dsp_buf s) dsp_i (dsp_amp s [*] sample dsp_phase_index))
    (fluid_phase_incr (dsp_phase s) dsp_phase_incr)
    (dsp_amp s [+] dsp_amp_incr).

(** Lines 133-143: FLUID_INTERP_LINEAR. *)
Definition linear_body (dsp_i : Z) (s : dsp_vars) : dsp_vars :=
  let dsp_coeff := interp_coeff_linear T (fluid_phase_fract_to_tablerow (dsp_phase s)) in
  let dsp_phase_index := fluid_phase_index (dsp_phase s) in
  set_interp s
    (store (dsp_buf s) dsp_i
       (dsp_amp s [*] (Coeff.a0 dsp_coeff [*] sample dsp_phase_index
                       [+] Coeff.a1 dsp_coeff [*] sample (dsp_phase_index + 1))))
    (fluid_phase_incr (dsp_phase s) dsp_phase_incr)
    (dsp_amp s [+] dsp_amp_incr).

(** Lines 313-326: FLUID_INTERP_4THORDER and default. *)
Definition fourth_order_body (dsp_i : Z) (s : dsp_vars) : dsp_vars :=
  let dsp_coeff := interp_coeff T (fluid_phase_fract_to_tablerow (dsp_phase s)) in
  let dsp_phase_index := fluid_phase_index (dsp_phase s) in
  set_interp s
    (store (dsp_buf s) dsp_i
       (dsp_amp s [*] (Coeff.a0 dsp_coeff [*] sample dsp_phase_index
                       [+] Coeff.a1 dsp_coeff [*] sample (dsp_phase_index + 1)
                       [+] Coeff.a2 dsp_coeff [*] sample (dsp_phase_index + 2)
                       [+] Coeff.a3 dsp_coeff [*] sample (dsp_phase_index + 3))))
    (fluid_phase_incr (dsp_phase s) dsp_phase_incr)
    (dsp_amp s [+] dsp_amp_incr).

(** Lines 335-350: FLUID_INTERP_7THORDER. *)
Definition seventh_order_body (dsp_i : Z) (s : dsp_vars) : dsp_vars :=
  let fract := fluid_phase_fract_to_tablerow (dsp_phase s) in
  let dsp_phase_index := fluid_phase_index (dsp_phase s) in
  set_interp s
    (store (dsp_buf s) dsp_i
       (dsp_amp s [*] (sinc_table7 T 0 fract [*] sample dsp_phase_index
                       [+] sinc_table7 T 1 fract [*] sample (dsp_phase_index + 1)
                       [+] sinc_table7 T 2 fract [*] sample (dsp_phase_index + 2)
                       [+] sinc_table7 T 3 fract [*] sample (dsp_phase_index + 3)
                       [+] sinc_table7 T 4 fract [*] sample (dsp_phase_index + 4)
                       [+] sinc_table7 T 5 fract [*] sample (dsp_phase_index + 5)
                       [+] sinc_table7 T 6 fract [*] sample (dsp_phase_index + 6))))
    (fluid_phase_incr (dsp_phase s) dsp_phase_incr)
    (dsp_amp s [+] dsp_amp_incr).

(** The test of lines 95-97. *)
Definition fast_path (s : dsp_vars) : bool :=
  (fluid_phase_fract (dsp_phase s) =? 0)
  && (fluid_phase_fract dsp_phase_incr =? 0)
  && (fluid_phase_index dsp_phase_incr =? 1).

(** The loop body the switch of line 115 selects. *)
Definition interp_body (dsp_interp_method : Z) : Z -> dsp_vars -> dsp_vars :=
  if dsp_interp_method =? FLUID_INTERP_NONE then none_body
  else if dsp_interp_method =? FLUID_INTERP_LINEAR then linear_body
  else if dsp_interp_method =? FLUID_INTERP_7THORDER then seventh_order_body
  else fourth_order_body.

Definition interpolate (dsp_interp_method : Z) (s : dsp_vars) : dsp_vars :=
  if fast_path s
  then for_range dsp_start dsp_end fast_body s
  else for_range dsp_start dsp_end (interp_body dsp_interp_method) s.

End Interpolation.

(** ** Stage 2: the voice filter (lines 358-411) *)

Section Filter.
Context {B : build}.
Variables dsp_start dsp_end : Z.
Local Open Scope real_scope.

(** Lines 380-383 and 405-408: one sample through the filter. *)
Definition filter_sample (dsp_i : Z) (s : dsp_vars) : dsp_vars :=
  let dsp_centernode :=
    dsp_buf s dsp_i [-] dsp_a1 s [*] dsp_hist1 s [-] dsp_a2 s [*] dsp_hist2 s in
  set_filter s
    (store (dsp_buf s) dsp_i
       (dsp_b02 s [*] (dsp_centernode [+] dsp_hist2 s) [+] dsp_b1 s [*] dsp_hist1 s))
    dsp_centernode
    (dsp_hist1 s).

(** Lines 385-390: [if (dsp_filter_coeff_incr_count-- > 0) { ... }]. *)
Definition advance_coeffs (dsp_a1_incr dsp_a2_incr dsp_b02_incr dsp_b1_incr : fluid_real_t)
    (s : dsp_vars) : dsp_vars :=
  let count := dsp_filter_coeff_incr_count s in
  let s' := set_count s (sint32 (count - 1)) in
  if 0 <? count
  then set_coeffs s' (dsp_a1 s' [+] dsp_a1_incr) (dsp_a2 s' [+] dsp_a2_incr)
                     (dsp_b02 s' [+] dsp_b02_incr) (dsp_b1 s' [+] dsp_b1_incr)
  else s'.

(** Lines 378-391: the body of the loop that changes the coefficients. *)
Definition transition_body (dsp_a1_incr dsp_a2_incr dsp_b02_incr dsp_b1_incr : fluid_real_t)
    (dsp_i : Z) (s : dsp_vars) : dsp_vars :=
  advance_coeffs dsp_a1_incr dsp_a2_incr dsp_b02_incr dsp_b1_incr (filter_sample dsp_i s).

(** Lines 370-410, after the check for denormal numbers. *)
Definition filter_loops (s : dsp_vars) : dsp_vars :=
  if 0 <? dsp_filter_coeff_incr_count s then
    let dsp_a1_incr := a1_incr (voice s) in
    let dsp_a2_incr := a2_incr (voice s) in
    let dsp_b02_incr := b02_incr (voice s) in
    let dsp_b1_incr := b1_incr (voice s) in
    let s' := for_range dsp_start dsp_end
                (transition_body dsp_a1_incr dsp_a2_incr dsp_b02_incr dsp_b1_incr) s in
    set_voice s' (persist_filter (voice s') s')
  else
    for_range dsp_start dsp_end filter_sample s.

(** Lines 358-411.  [None]: the behaviour of the conversion inside
    zap_almost_zero is undefined. *)
Definition filter (dsp_use_filter_flag : bool) (s : dsp_vars) : option dsp_vars :=
  if dsp_use_filter_flag then
    match zap_almost_zero (dsp_hist1 s) with
    | None => None
    | Some h => Some (filter_loops (set_hist1 s h))
    end
  else Some s.

End Filter.

(** ** Stage 3: pan, reverb send and chorus send (lines 513-550) *)

Section Mixdown.
Context {B : build}.
Variables dsp_start dsp_end : Z.
Local Open Scope real_scope.

(** A [fluid_real_t] operand of a comparison with a [double] constant. *)
Definition promote (x : fluid_real_t) : spec_float :=
  if WITH_FLOAT then SFconvert prec64 emax64 x else x.

(** Line 513: [(voice->pan < 0.5) && (voice->pan > -0.5)]. *)
Definition centered (v : fluid_voice_t) : bool :=
  SFltb (promote (pan v)) d_half && SFltb (SFopp d_half) (promote (pan v)).

(** Lines 516-520: [float v = voice->amp_left * dsp_buf[dsp_i]] added to
    both channels. *)
Definition centered_body (dsp_i : Z) (s : dsp_vars) : dsp_vars :=
  let v := store_in_float (amp_left (voice s) [*] dsp_buf s dsp_i) in
  let s' := set_left s (store (dsp_left_buf s) dsp_i (dsp_left_buf s dsp_i [+] v)) in
  set_right s' (store (dsp_right_buf s') dsp_i (dsp_right_buf s' dsp_i [+] v)).

(** [dest[dsp_i] += amp * dsp_buf[dsp_i]] over the block. *)
Definition add_scaled (amp : fluid_real_t) (src : Z -> fluid_real_t)
    (dest : Z -> fluid_real_t) : Z -> fluid_real_t :=
  for_range dsp_start dsp_end
    (fun dsp_i d => store d dsp_i (d dsp_i [+] amp [*] src dsp_i)) dest.

(** Lines 513-536. *)
Definition pan_stage (s : dsp_vars) : dsp_vars :=
  if centered (voice s) then
    for_range dsp_start dsp_end centered_body s
  else
    let s1 :=
      if real_nonzero (amp_left (voice s))
      then set_left s (add_scaled (amp_left (voice s)) (dsp_buf s) (dsp_left_buf s))
      else s in
    if real_nonzero (amp_right (voice s1))
    then set_right s1 (add_scaled (amp_right (voice s1)) (dsp_buf s1) (dsp_right_buf s1))
    else s1.

(** Lines 539-543 and 546-550: a send to a buffer that may be NULL. *)
Definition send (amp : fluid_real_t) (src : Z -> fluid_real_t)
    (dest : option (Z -> fluid_real_t)) : option (Z -> fluid_real_t) :=
  match dest with
  | Some d => if real_nonzero amp then Some (add_scaled amp src d) else Some d
  | None => None
  end.

Definition reverb_stage (s : dsp_vars) : dsp_vars :=
  set_reverb s (send (amp_reverb (voice s)) (dsp_buf s) (dsp_reverb_buf s)).

Definition chorus_stage (s : dsp_vars) : dsp_vars :=
  set_chorus s (send (amp_chorus (voice s)) (dsp_buf s) (dsp_chorus_buf s)).

Definition mixdown (s : dsp_vars) : dsp_vars :=
  chorus_stage (reverb_stage (pan_stage s)).

End Mixdown.

(** ** The whole block *)

Definition fluid_dsp_core {B : build} (T : interp_tables) (dsp_data : Z -> Z)
    (dsp_start dsp_end : Z) (dsp_phase_incr : fluid_phase_t) (dsp_amp_incr : fluid_real_t)
    (dsp_interp_method : Z) (dsp_use_filter_flag : bool) (s : dsp_vars) : option dsp_vars :=
  match filter dsp_start dsp_end dsp_use_filter_flag
          (interpolate T dsp_data dsp_start dsp_end dsp_phase_incr dsp_amp_incr
             dsp_interp_method s) with
  | None => None
  | Some s' => Some (mixdown dsp_start dsp_end s')
  end.

(** ** fluid_rvoice_get_sample (fluid_rvoice.h, lines 214-230) *)

(** The value of a byte of memory read as [uint8_t]. *)
Definition uint8_of_byte (b : byte) : Z := Z.of_N (Byte.to_N b).

Definition fluid_rvoice_get_sample (dsp_msb : Z -> Z) (dsp_lsb : option (Z -> byte))
    (idx : Z) : Z :=
  let msb := uint32 (dsp_msb idx) in
  let lsb := match dsp_lsb with
             | Some l => uint8_of_byte (l idx)
             | None => 0
             end in
  sint32 (Z.lor (uint32 (Z.shiftl msb 8)) lsb).

(** ** Quantities the statements speak of *)

Section Quantities.
Context {B : build}.
Local Open Scope real_scope.

(** [x += incr] executed [n] times, each addition rounded. *)
Definition accumulate (incr x : fluid_real_t) (n : nat) : fluid_real_t :=
  Nat.iter n (fun a => a [+] incr) x.

End Quantities.

(** The voice with another right gain. *)
Definition with_amp_right (v : fluid_voice_t) (r : fluid_real_t) : fluid_voice_t :=
  {| a1 := a1 v; a2 := a2 v; b02 := b02 v; b1 := b1 v;
     filter_coeff_incr_count := filter_coeff_incr_count v;
     a1_incr := a1_incr v; a2_incr := a2_incr v; b02_incr := b02_incr v;
     b1_incr := b1_incr v; pan := pan v; amp_left := amp_left v;
     amp_right := r; amp_reverb := amp_reverb v; amp_chorus := amp_chorus v |}.

(** [fluid_phase_incr(phase, incr)] executed [n] times. *)
Definition phase_after (incr ph : fluid_phase_t) (n : nat) : fluid_phase_t :=
  Nat.iter n (fun p => fluid_phase_incr p incr) ph.

Section FilterQuantities.
Context {B : build}.
Local Open Scope real_scope.

(** The recurrence in the words of the specification:
    centernode = in - a1.hist1 - a2.hist2;
    out = b02.(centernode + hist2) + b1.hist1;
    hist2 takes hist1, hist1 takes centernode.
    The result is (out, new hist1, new hist2). *)
Definition direct_form_II (a1 a2 b02 b1 input hist1 hist2 : fluid_real_t)
    : fluid_real_t * fluid_real_t * fluid_real_t :=
  let centernode := input [-] a1 [*] hist1 [-] a2 [*] hist2 in
  let out := b02 [*] (centernode [+] hist2) [+] b1 [*] hist1 in
  (out, centernode, hist1).

(** What one sample of the filter stores in its cell. *)
Definition filter_output (dsp_i : Z) (s : dsp_vars) : fluid_real_t :=
  fst (fst (direct_form_II (dsp_a1 s) (dsp_a2 s) (dsp_b02 s) (dsp_b1 s)
              (dsp_buf s dsp_i) (dsp_hist1 s) (dsp_hist2 s))).

(** The body of the filter loop that lines 370-410 run on [s]. *)
Definition filter_body (s : dsp_vars) : Z -> dsp_vars -> dsp_vars :=
  if 0 <? dsp_filter_coeff_incr_count s
  then transition_body (a1_incr (voice s)) (a2_incr (voice s))
                       (b02_incr (voice s)) (b1_incr (voice s))
  else filter_sample.

(** The variables after the first [k] samples of the filter loop. *)
Definition filter_after (dsp_start : Z) (s : dsp_vars) (k : nat) : dsp_vars :=
  for_loop (filter_body s) dsp_start k s.

(** What the centered branch adds to both channels at index [j]. *)
Definition centered_value (s : dsp_vars) (j : Z) : fluid_real_t :=
  store_in_float (amp_left (voice s) [*] dsp_buf s j).

End FilterQuantities.

(** A zero of either sign; a zero or a finite number (no infinity, no
    NaN). *)
Definition is_zero (x : fluid_real_t) : bool :=
  match x with
  | S754_zero _ => true
  | _ => false
  end.

Definition is_finite (x : fluid_real_t) : bool :=
  match x with
  | S754_zero _ | S754_finite _ _ _ => true
  | _ => false
  end.

Section PanResults.
Context {B : build}.
Variables dsp_start dsp_end : Z.
Local Open Scope real_scope.

(** The left and the right buffer after lines 513-536, from the voice, the
    signal and the buffer before. *)
Definition pan_left_result (v : fluid_voice_t) (buf left : Z -> fluid_real_t)
    : Z -> fluid_real_t :=
  if centered v then
    for_range dsp_start dsp_end
      (fun k d => store d k (d k [+] store_in_float (amp_left v [*] buf k))) left
  else if real_nonzero (amp_left v) then add_scaled dsp_start dsp_end (amp_left v) buf left
  else left.

Definition pan_right_result (v : fluid_voice_t) (buf right : Z -> fluid_real_t)
    : Z -> fluid_real_t :=
  if centered v then
    for_range dsp_start dsp_end
      (fun k d => store d k (d k [+] store_in_float (amp_left v [*] buf k))) right
  else if real_nonzero (amp_right v) then add_scaled dsp_start dsp_end (amp_right v) buf right
  else right.

End PanResults.

(** The cell at index [i] of a buffer that may be NULL. *)
Definition cell_of (buf : option (Z -> fluid_real_t)) (i : Z) : option fluid_real_t :=
  match buf with
  | Some d => Some (d i)
  | None => None
  end.

(** ** Concrete inputs for the examples *)

(** 2^-53 and 2^-24: half an ulp of 1.0 in binary64 and in binary32. *)
Definition d_half_ulp : spec_float := S754_finite false 4503599627370496 (-105).
Definition f_half_ulp : spec_float := S754_finite false 8388608 (-47).
(** 0.1 as a [double] (0x1.999999999999ap-4). *)
Definition d_tenth : spec_float := S754_finite false 7205759403792794 (-56).
(** 2^-111, the least [float] whose exponent field is 16 (0x08000000). *)
Definition f_zap_threshold : spec_float := S754_finite false 8388608 (-134).

(** The sample table 10, 20, ..., 70 followed by silence. *)
Definition table_10_70 (i : Z) : Z :=
  if (0 <=? i) && (i <? 7) then 10 * (i + 1) else 0.

Definition silence : Z -> fluid_real_t := fun _ => real_zero.

Section Examples.
Context {B : build}.

Definition real_one : fluid_real_t := if WITH_FLOAT then f_one else d_one.
Definition real_half_ulp : fluid_real_t := if WITH_FLOAT then f_half_ulp else d_half_ulp.

(** A signal 1, 2, 3, ... in the buffer. *)
Definition ramp : Z -> fluid_real_t := fun i => real_of_int (i + 1).

(** Tables that pass the first tap through. *)
Definition unit_row : Coeff.t := Coeff.mk real_one real_zero real_zero real_zero.
Definition unit_tables : interp_tables :=
  {| interp_coeff_linear := fun _ => unit_row;
     interp_coeff := fun _ => unit_row;
     sinc_table7 := fun tap _ => if tap =? 0 then real_one else real_zero |}.

(** A voice whose filter starts at a1 = 1, a2 = 0, b02 = 1, b1 = 0 and
    moves a1 by [x1_incr] per sample for [count] samples, with the given pan
    and gains. *)
Definition example_voice (x1_incr : fluid_real_t) (count : Z)
    (p left right reverb chorus : fluid_real_t) : fluid_voice_t :=
  {| a1 := real_one; a2 := real_zero; b02 := real_one; b1 := real_zero;
     filter_coeff_incr_count := count;
     a1_incr := x1_incr; a2_incr := real_zero; b02_incr := real_zero; b1_incr := real_zero;
     pan := p; amp_left := left; amp_right := right;
     amp_reverb := reverb; amp_chorus := chorus |}.

(** The variables at the start of a block: phase at sample 0, amplitude 1,
    no history, the filter coefficients and the count copied from the
    voice, silent left and right buffers. *)
Definition example_vars (buf : Z -> fluid_real_t) (v : fluid_voice_t)
    (reverb chorus : option (Z -> fluid_real_t)) : dsp_vars :=
  mk_dsp_vars buf {| index := 0; fract := 0 |} real_one real_zero real_zero
    (a1 v) (a2 v) (b02 v) (b1 v) (filter_coeff_incr_count v) v
    silence silence reverb chorus.

(** A voice panned hard to one side with unit gains, no filter glide. *)
Definition plain_voice : fluid_voice_t :=
  example_voice real_zero 0 (real_of_int 500) real_one real_one real_zero real_zero.

End Examples.

Section DoubleBuildExamples.
#[local] Existing Instance double_build.

(** A block in the double build: the signal 1, 2, 3, ... in the buffer, a
    filter with a1 = 1 that is to move by 2^-53 per sample for 2 samples. *)
Definition glide : dsp_vars :=
  example_vars ramp
    (example_voice real_half_ulp 2 (real_of_int 500) real_one real_one real_zero real_zero)
    None None.

(** The same block with an increment of 0.1 for 3 samples. *)
Definition glide_tenth : dsp_vars :=
  example_vars ramp
    (example_voice d_tenth 3 (real_of_int 500) real_one real_one real_zero real_zero)
    None None.

(** Blocks of the double build over the signal 1, 2, 3, ...: a voice
    panned hard left with no right gain; a centered voice with no right
    gain; a centered voice with gains 0.1 and 0.5 over the constant signal
    0.1; a voice with a reverb send of 0.5 and no chorus buffer. *)
Definition hard_left : dsp_vars :=
  example_vars ramp
    (example_voice real_zero 0 (real_of_int (-500)) real_one real_zero real_zero real_zero)
    None None.

Definition centered_left_only : dsp_vars :=
  example_vars ramp
    (example_voice real_zero 0 real_zero real_one real_zero real_zero real_zero)
    None None.

Definition centered_tenth : dsp_vars :=
  example_vars (fun _ => d_tenth)
    (example_voice real_zero 0 real_zero d_tenth d_half real_zero real_zero)
    None None.

Definition with_reverb : dsp_vars :=
  example_vars ramp
    (example_voice real_zero 0 (real_of_int (-500)) real_one real_zero d_half d_half)
    (Some silence) None.

End DoubleBuildExamples.

Section FloatBuildExamples.
#[local] Existing Instance float_build.

(** Blocks of the float build: silence with amplitude 1; the signal
    1, 2, 3, ... with a filter whose a1 = 1 is to move by 2^-24 per sample
    for 2 samples. *)
Definition unit_block_float : dsp_vars :=
  example_vars silence plain_voice None None.

Definition glide_float : dsp_vars :=
  example_vars ramp
    (example_voice real_half_ulp 2 (real_of_int 500) real_one real_one real_zero real_zero)
    None None.

End FloatBuildExamples.

(** * Theorems *)

(** ** Loops and stores *)

Lemma for_loop_snoc {St : Type} (body : Z -> St -> St) (n : nat) :
  forall i s, for_loop body i (S n) s = body (i + Z.of_nat n) (for_loop body i n s).
Proof.
  induction n as [|n IH]; intros i s.
  - simpl. now rewrite Z.add_0_r.
  - change (for_loop body i (S (S n)) s)
      with (for_loop body (i + 1) (S n) (body i s)).
    rewrite IH. simpl for_loop. f_equal. lia.
Qed.

Lemma store_same {A : Type} (buf : Z -> A) i v : store buf i v i = v.
Proof. unfold store. now rewrite Z.eqb_refl. Qed.

Lemma store_other {A : Type} (buf : Z -> A) i j v : j <> i -> store buf i v j = buf j.
Proof. intro H. unfold store. destruct (Z.eqb_spec j i); congruence. Qed.

Lemma in_block_true dsp_start dsp_end i :
  dsp_start <= i < dsp_end -> (dsp_start <=? i) && (i <? dsp_end) = true.
Proof.
  intro H. apply andb_true_iff. split; [apply Z.leb_le | apply Z.ltb_lt]; lia.
Qed.

Lemma in_block_false dsp_start dsp_end i :
  ~ dsp_start <= i < dsp_end -> (dsp_start <=? i) && (i <? dsp_end) = false.
Proof.
  intro H. apply andb_false_iff.
  destruct (Z.leb_spec dsp_start i); [right; apply Z.ltb_ge; lia | left; reflexivity].
Qed.

Lemma sint32_small z : INT_MIN <= z <= INT_MAX -> sint32 z = z.
Proof.
  unfold sint32, INT_MIN, INT_MAX. intro H.
  rewrite Z.mod_small; lia.
Qed.

Lemma sint32_idem_add a b : sint32 (sint32 a + b) = sint32 (a + b).
Proof.
  unfold sint32.
  replace ((a + 2147483648) mod 4294967296 - 2147483648 + b + 2147483648)
    with ((a + 2147483648) mod 4294967296 + b) by lia.
  rewrite Z.add_mod_idemp_l by lia.
  f_equal. f_equal. lia.
Qed.

(** ** The literals *)

(** The constants above are values of their formats, and are the numbers
    their names say: 1 = 2^52 x 2^-52, 0.5 = 2^52 x 2^-53, ... *)
Example literals_are_valid :
  forallb (valid_binary prec64 emax64) [d_one; d_half; d_1e_20; d_half_ulp; d_tenth] = true
  /\ forallb (valid_binary prec32 emax32) [f_one; f_half_ulp; f_zap_threshold] = true
  /\ SFof_Z prec64 emax64 1 = d_one
  /\ SFof_Z prec32 emax32 1 = f_one
  /\ SFadd prec64 emax64 d_half d_half = d_one
  /\ SFmul prec64 emax64 (SFof_Z prec64 emax64 10) d_tenth = d_one.
Proof. repeat split. Qed.

(** ** fluid_rvoice_get_sample *)

Lemma uint8_of_byte_range b : 0 <= uint8_of_byte b < 256.
Proof.
  unfold uint8_of_byte. pose proof (Byte.to_N_bounded b). lia.
Qed.

(** A byte or-ed below a value shifted left by eight bits is added to it. *)
Lemma lor_low_byte a b : 0 <= b < 256 -> Z.lor (a * 256) b = a * 256 + b.
Proof.
  intro Hb.
  assert (Hland : Z.land (a * 256) b = 0).
  { apply Z.bits_inj'. intros n Hn.
    rewrite Z.land_spec, Z.bits_0.
    destruct (Z.ltb_spec n 8) as [Hlt | Hge].
    - change 256 with (2 ^ 8). rewrite Z.mul_pow2_bits_low by lia. reflexivity.
    - replace b with (b mod 2 ^ 8) by (apply Z.mod_small; change (2 ^ 8) with 256; lia).
      rewrite Z.mod_pow2_bits_high by lia. apply andb_false_r. }
  rewrite <- Z.lxor_lor by exact Hland.
  symmetry. apply Z.add_nocarry_lxor. exact Hland.
Qed.

Lemma get_sample_combine m b :
  -32768 <= m <= 32767 -> 0 <= b < 256 ->
  sint32 (Z.lor (uint32 (Z.shiftl (uint32 m) 8)) b) = 256 * m + b.
Proof.
  intros Hm Hb. unfold uint32.
  rewrite Z.shiftl_mul_pow2 by lia. change (2 ^ 8) with 256.
  assert (E : (m mod 4294967296 * 256) mod 4294967296 = (m mod 16777216) * 256).
  { Z.to_euclidean_division_equations. lia. }
  rewrite E, lor_low_byte by exact Hb.
  unfold sint32. Z.to_euclidean_division_equations. lia.
Qed.

(** C10.  For a 16-bit sample [dsp_msb[idx]], fluid_rvoice_get_sample returns
    256 x msb[idx] + lsb[idx], the low-order byte read as the unsigned 8-bit
    value the code casts it to; the sum lies in the signed 24-bit range and
    is negative exactly when the sample is, so the sign of the sample is
    kept.  With a NULL [dsp_lsb] it returns 256 x msb[idx]. *)
Theorem get_sample_is_msb_shifted_plus_lsb :
  forall (dsp_msb : Z -> Z) (dsp_lsb : Z -> byte) (idx : Z),
    -32768 <= dsp_msb idx <= 32767 ->
    fluid_rvoice_get_sample dsp_msb (Some dsp_lsb) idx
      = 256 * dsp_msb idx + uint8_of_byte (dsp_lsb idx)
    /\ fluid_rvoice_get_sample dsp_msb None idx = 256 * dsp_msb idx
    /\ -8388608 <= fluid_rvoice_get_sample dsp_msb (Some dsp_lsb) idx <= 8388607
    /\ (fluid_rvoice_get_sample dsp_msb (Some dsp_lsb) idx < 0 <-> dsp_msb idx < 0).
Proof.
  intros dsp_msb dsp_lsb idx Hm.
  pose proof (uint8_of_byte_range (dsp_lsb idx)) as Hb.
  unfold fluid_rvoice_get_sample.
  rewrite (get_sample_combine _ _ Hm Hb).
  rewrite (get_sample_combine (dsp_msb idx) 0 Hm) by lia.
  repeat split; lia.
Qed.

(** The sample 0xFFFF (-1) with low-order byte 0xFF is the 24-bit value -1;
    without low-order bytes it is -256. *)
Lemma get_sample_witness :
  fluid_rvoice_get_sample (fun _ => -1) (Some (fun _ => xff)) 5 = -1
  /\ fluid_rvoice_get_sample (fun _ => -1) None 5 = -256.
Proof.
  destruct (get_sample_is_msb_shifted_plus_lsb (fun _ => -1) (fun _ => xff) 5)
    as [H1 [H2 _]].
  - cbv beta. lia.
  - split; [exact H1 | exact H2].
Defined.

(** ** zap_almost_zero *)

Lemma digits2_pos_size m : digits2_pos m = Pos.size m.
Proof. induction m; simpl; congruence. Qed.

Lemma digits2_pos_bounds m :
  2 ^ (Zpos (digits2_pos m) - 1) <= Zpos m < 2 ^ Zpos (digits2_pos m).
Proof.
  rewrite digits2_pos_size.
  pose proof (Pos.size_gt m) as Hgt. pose proof (Pos.size_le m) as Hle.
  assert (E1 : Zpos (2 ^ Pos.size m) = 2 ^ Zpos (Pos.size m)) by apply Pos2Z.inj_pow.
  assert (E2 : 2 ^ Zpos (Pos.size m) = 2 * 2 ^ (Zpos (Pos.size m) - 1)).
  { rewrite <- Z.pow_succ_r by lia. f_equal. lia. }
  apply Pos2Z.pos_lt_pos in Hgt. apply Pos2Z.pos_le_pos in Hle.
  rewrite E1 in Hgt, Hle. change (Z.pos m~0) with (2 * Z.pos m) in Hle.
  split; lia.
Qed.

(** The exponent field of an encoding: [bits & 0x7f800000]. *)
Lemma exponent_field sb f r :
  0 <= f < 256 -> 0 <= r < 8388608 ->
  Z.land (Z.lor (Z.shiftl sb 31) (Z.lor (Z.shiftl f 23) r)) 0x7f800000 = f * 8388608.
Proof.
  intros Hf Hr.
  change 0x7f800000 with (Z.shiftl (Z.ones 8) 23).
  change 8388608 with (2 ^ 23) in *. rewrite <- Z.shiftl_mul_pow2 by lia.
  apply Z.bits_inj'. intros n Hn.
  rewrite Z.land_spec, !Z.lor_spec.
  destruct (Z.ltb_spec n 23) as [H23 | H23].
  - rewrite (Z.shiftl_spec_low (Z.ones 8)), (Z.shiftl_spec_low f) by lia.
    apply andb_false_r.
  - rewrite (Z.shiftl_spec (Z.ones 8)) by lia.
    replace (Z.testbit r n) with false
      by (symmetry; replace r with (r mod 2 ^ 23) by (apply Z.mod_small; lia);
          apply Z.mod_pow2_bits_high; lia).
    rewrite orb_false_r.
    destruct (Z.ltb_spec n 31) as [H31 | H31].
    + rewrite Z.ones_spec_low by lia.
      rewrite (Z.shiftl_spec_low sb) by lia. simpl. apply andb_true_r.
    + rewrite Z.ones_spec_high by lia. rewrite andb_false_r.
      rewrite Z.shiftl_spec by lia.
      symmetry. replace f with (f mod 2 ^ 8) by (apply Z.mod_small; change (2 ^ 8) with 256; lia).
      apply Z.mod_pow2_bits_high. lia.
Qed.

(** In the float build the macro is the magnitude test it is meant to be:
    a value below 2^-111 in magnitude (zero and the denormals among them)
    becomes +0.0, every other value, infinities and NaN included, is
    returned as it is. *)
Lemma zap_float_build (x : spec_float) :
  valid_binary prec32 emax32 x = true ->
  @zap_almost_zero float_build x
    = Some (if SFltb (SFabs x) f_zap_threshold then S754_zero false else x).
Proof.
  intro Hv. unfold zap_almost_zero. cbn [WITH_FLOAT float_build]. f_equal.
  destruct x as [s | s | | s m e].
  - destruct s; reflexivity.
  - destruct s; reflexivity.
  - reflexivity.
  - cbn [valid_binary] in Hv. unfold bounded, canonical_mantissa, fexp, emin in Hv.
    apply andb_true_iff in Hv. destruct Hv as [Hc He].
    apply Z.eqb_eq in Hc. apply Z.leb_le in He.
    unfold prec32, emax32 in *.
    pose proof (digits2_pos_bounds m) as Hd.
    cbn [float_bits SFabs]. unfold SFltb, f_zap_threshold. cbn [SFcompare].
    destruct (Z.ltb_spec (Z.pos m) 8388608) as [Hm | Hm].
    + (* denormal: the exponent field is 0 *)
      assert (Hdig : Zpos (digits2_pos m) <= 23).
      { destruct (Z.le_gt_cases (Zpos (digits2_pos m)) 23) as [H | H]; [exact H|].
        assert (2 ^ 23 <= 2 ^ (Zpos (digits2_pos m) - 1)) by (apply Z.pow_le_mono_r; lia).
        change (2 ^ 23) with 8388608 in *. lia. }
      assert (Ee : e = -149) by lia. subst e.
      replace (Z.lor (Z.shiftl (Z.b2z s) 31) (Z.pos m))
        with (Z.lor (Z.shiftl (Z.b2z s) 31) (Z.lor (Z.shiftl 0 23) (Z.pos m)))
        by (now rewrite Z.shiftl_0_l, Z.lor_0_l).
      rewrite exponent_field by lia. reflexivity.
    + (* normal: the exponent field is e + 150 *)
      assert (Hdig : Zpos (digits2_pos m) = 24).
      { assert (24 <= Zpos (digits2_pos m)).
        { destruct (Z.le_gt_cases 24 (Zpos (digits2_pos m))) as [H | H]; [exact H|].
          assert (2 ^ Zpos (digits2_pos m) <= 2 ^ 23) by (apply Z.pow_le_mono_r; lia).
          change (2 ^ 23) with 8388608 in *. lia. }
        lia. }
      rewrite Hdig in Hd. change (2 ^ 24) with 16777216 in Hd.
      rewrite exponent_field by lia.
      destruct (Z.compare_spec e (-134)) as [E | E | E].
      * subst e.
        replace (Pos.compare_cont Eq m 8388608) with ((m ?= 8388608)%positive) by reflexivity.
        destruct (Pos.compare_spec m 8388608) as [E' | E' | E']; try reflexivity.
        exfalso. lia.
      * destruct (Z.ltb_spec ((e + 150) * 8388608) 0x08000000) as [H | H]; [reflexivity|].
        exfalso. change 0x08000000 with 134217728 in H. lia.
      * destruct (Z.ltb_spec ((e + 150) * 8388608) 0x08000000) as [H | H]; [|reflexivity].
        exfalso. change 0x08000000 with 134217728 in H. lia.
Qed.

(** In the double build [abs] truncates its argument to an [int]: every
    value of magnitude below 1 is turned into 0. *)
Lemma zap_double_build_below_one (s : bool) (m : positive) (e : Z) :
  e < 0 -> Zpos m < 2 ^ (- e) ->
  @zap_almost_zero double_build (S754_finite s m e) = Some (S754_zero false).
Proof.
  intros He Hm. unfold zap_almost_zero. cbn [WITH_FLOAT double_build int_of_real].
  assert (E : Z.shiftl (Z.pos m) e = 0).
  { rewrite <- (Z.opp_involutive e) at 1. rewrite Z.shiftl_opp_r.
    rewrite Z.shiftr_div_pow2 by lia. apply Z.div_small. lia. }
  rewrite E. destruct s; reflexivity.
Qed.

(** C2 (double build).  The history value 0.5 lies above the threshold
    1e-20, and the flush before the filter loops turns it into 0: the
    macro compares [abs(0.5)], the integer 0, with 1e-20. *)
Theorem zap_double_build_flushes_one_half :
  SFltb (SFabs d_half) d_1e_20 = false
  /\ @zap_almost_zero double_build d_half = Some (S754_zero false)
  /\ option_map dsp_hist1
       (@filter double_build 0 0 true
          (set_hist1 (@example_vars double_build silence (@plain_voice double_build) None None)
             d_half))
     = Some (S754_zero false).
Proof. repeat split. Qed.

(** ** Loops over the variables of the block *)

(** A variable that every iteration updates by the same function. *)
Lemma for_loop_proj {St A : Type} (proj : St -> A) (f : A -> A) (body : Z -> St -> St) :
  (forall i s, proj (body i s) = f (proj s)) ->
  forall n i s, proj (for_loop body i n s) = Nat.iter n f (proj s).
Proof.
  intros Hbody n. induction n as [|n IH]; intros i s.
  - reflexivity.
  - rewrite for_loop_snoc, Hbody, IH. reflexivity.
Qed.

(** A variable that no iteration changes. *)
Lemma for_loop_keeps {St A : Type} (proj : St -> A) (body : Z -> St -> St) :
  (forall i s, proj (body i s) = proj s) ->
  forall n i s, proj (for_loop body i n s) = proj s.
Proof.
  intros Hbody n. induction n as [|n IH]; intros i s.
  - reflexivity.
  - rewrite for_loop_snoc, Hbody, IH. reflexivity.
Qed.

Section BufferLoops.
Variable body : Z -> dsp_vars -> dsp_vars.
Variable val : Z -> dsp_vars -> fluid_real_t.
Hypothesis body_stores : forall i s, dsp_buf (body i s) = store (dsp_buf s) i (val i s).

(** Cells outside the indices visited so far are untouched. *)
Lemma loop_frame n : forall dsp_start s j,
  j < dsp_start \/ dsp_start + Z.of_nat n <= j ->
  dsp_buf (for_loop body dsp_start n s) j = dsp_buf s j.
Proof.
  induction n as [|n IH]; intros dsp_start s j Hj.
  - reflexivity.
  - rewrite for_loop_snoc, body_stores, store_other by lia.
    apply IH. lia.
Qed.

(** The cell of the k-th sample holds what iteration k stored there. *)
Lemma loop_output n : forall dsp_start s k,
  (k < n)%nat ->
  dsp_buf (for_loop body dsp_start n s) (dsp_start + Z.of_nat k)
  = val (dsp_start + Z.of_nat k) (for_loop body dsp_start k s).
Proof.
  induction n as [|n IH]; intros dsp_start s k Hk.
  - lia.
  - rewrite for_loop_snoc, body_stores.
    destruct (Nat.eq_dec k n) as [-> | Hne].
    + apply store_same.
    + rewrite store_other by lia. apply IH. lia.
Qed.

End BufferLoops.

(** [dest[i] += g(i)] over a range: each cell of the range is updated once,
    from its value before the loop. *)
Lemma accumulate_loop {A : Type} (g : Z -> A -> A) n : forall dsp_start (d : Z -> A) j,
  for_loop (fun i d' => store d' i (g i (d' i))) dsp_start n d j
  = if (dsp_start <=? j) && (j <? dsp_start + Z.of_nat n) then g j (d j) else d j.
Proof.
  induction n as [|n IH]; intros dsp_start d j.
  - simpl. replace (j <? dsp_start + 0) with (negb (dsp_start <=? j)).
    + now destruct (dsp_start <=? j).
    + destruct (Z.leb_spec dsp_start j), (Z.ltb_spec j (dsp_start + 0)); simpl; lia || reflexivity.
  - rewrite for_loop_snoc.
    destruct (Z.eq_dec j (dsp_start + Z.of_nat n)) as [-> | Hne].
    + rewrite store_same, IH.
      replace (dsp_start + Z.of_nat n <? dsp_start + Z.of_nat n) with false
        by (symmetry; apply Z.ltb_irrefl).
      rewrite andb_false_r.
      replace (dsp_start <=? dsp_start + Z.of_nat n) with true
        by (symmetry; apply Z.leb_le; lia).
      replace (dsp_start + Z.of_nat n <? dsp_start + Z.of_nat (S n)) with true
        by (symmetry; apply Z.ltb_lt; lia).
      reflexivity.
    + rewrite store_other by exact Hne. rewrite IH.
      replace (j <? dsp_start + Z.of_nat (S n)) with (j <? dsp_start + Z.of_nat n).
      * reflexivity.
      * destruct (Z.ltb_spec j (dsp_start + Z.of_nat n)),
                 (Z.ltb_spec j (dsp_start + Z.of_nat (S n))); lia || reflexivity.
Qed.

(** ** Interpolation *)

Section InterpolationFacts.
Context {B : build}.
Variable T : interp_tables.
Variable dsp_data : Z -> Z.
Variable dsp_phase_incr : fluid_phase_t.
Variable dsp_amp_incr : fluid_real_t.
Local Open Scope real_scope.

Lemma fast_body_amp i s :
  dsp_amp (fast_body dsp_data dsp_amp_incr i s) = dsp_amp s [+] dsp_amp_incr.
Proof. reflexivity. Qed.

Lemma fast_body_phase i s :
  dsp_phase (fast_body dsp_data dsp_amp_incr i s)
  = snd (fluid_phase_index_plusplus (dsp_phase s)).
Proof. reflexivity. Qed.

Lemma fast_body_stores i s :
  dsp_buf (fast_body dsp_data dsp_amp_incr i s)
  = store (dsp_buf s) i
      ((fun _ s' => dsp_amp s' [*] sample dsp_data (fluid_phase_index (dsp_phase s'))) i s).
Proof. reflexivity. Qed.

Lemma interp_body_amp m i s :
  dsp_amp (interp_body T dsp_data dsp_phase_incr dsp_amp_incr m i s)
  = dsp_amp s [+] dsp_amp_incr.
Proof.
  unfold interp_body.
  destruct (m =? FLUID_INTERP_NONE); [reflexivity|].
  destruct (m =? FLUID_INTERP_LINEAR); [reflexivity|].
  destruct (m =? FLUID_INTERP_7THORDER); reflexivity.
Qed.

Lemma interp_body_phase m i s :
  dsp_phase (interp_body T dsp_data dsp_phase_incr dsp_amp_incr m i s)
  = fluid_phase_incr (dsp_phase s) dsp_phase_incr.
Proof.
  unfold interp_body.
  destruct (m =? FLUID_INTERP_NONE); [reflexivity|].
  destruct (m =? FLUID_INTERP_LINEAR); [reflexivity|].
  destruct (m =? FLUID_INTERP_7THORDER); reflexivity.
Qed.

(** Moving on by one sample is one phase increment when the fraction is 0
    and the increment is exactly one sample. *)
Lemma plusplus_is_incr (p : fluid_phase_t) :
  fluid_phase_fract p = 0 ->
  fluid_phase_fract dsp_phase_incr = 0 ->
  fluid_phase_index dsp_phase_incr = 1 ->
  snd (fluid_phase_index_plusplus p) = fluid_phase_incr p dsp_phase_incr.
Proof.
  unfold fluid_phase_fract, fluid_phase_index, fluid_phase_index_plusplus, fluid_phase_incr.
  intros Hp Hf Hi. cbn [snd]. rewrite Hp, Hf, Hi. cbn. rewrite Z.add_0_r. reflexivity.
Qed.

Lemma plusplus_iter (p : fluid_phase_t) (n : nat) :
  fluid_phase_fract p = 0 ->
  fluid_phase_fract dsp_phase_incr = 0 ->
  fluid_phase_index dsp_phase_incr = 1 ->
  Nat.iter n (fun q => snd (fluid_phase_index_plusplus q)) p
  = phase_after dsp_phase_incr p n
  /\ fluid_phase_fract (phase_after dsp_phase_incr p n) = 0.
Proof.
  intros Hp Hf Hi. induction n as [|n [IH1 IH2]].
  - split; [reflexivity | exact Hp].
  - assert (E : Nat.iter (S n) (fun q => snd (fluid_phase_index_plusplus q)) p
                = phase_after dsp_phase_incr p (S n)).
    { change (snd (fluid_phase_index_plusplus
                     (Nat.iter n (fun q => snd (fluid_phase_index_plusplus q)) p))
              = fluid_phase_incr (phase_after dsp_phase_incr p n) dsp_phase_incr).
      rewrite IH1. apply plusplus_is_incr; assumption. }
    split; [exact E|].
    change (phase_after dsp_phase_incr p (S n))
      with (fluid_phase_incr (phase_after dsp_phase_incr p n) dsp_phase_incr).
    unfold fluid_phase_fract, fluid_phase_incr in *. cbn [fract].
    rewrite IH2, Hf. reflexivity.
Qed.

(** The index after [n] single-sample steps. *)
Lemma plusplus_index (p : fluid_phase_t) (n : nat) :
  INT_MIN <= index p <= INT_MAX ->
  fluid_phase_index (Nat.iter n (fun q => snd (fluid_phase_index_plusplus q)) p)
  = sint32 (index p + Z.of_nat n).
Proof.
  intro Hr. induction n as [|n IH].
  - cbn [Nat.iter]. unfold fluid_phase_index. rewrite Z.add_0_r.
    symmetry. apply sint32_small. exact Hr.
  - unfold fluid_phase_index in *.
    change (sint32 (index (Nat.iter n (fun q => snd (fluid_phase_index_plusplus q)) p) + 1)
            = sint32 (index p + Z.of_nat (S n))).
    rewrite IH, sint32_idem_add. f_equal. lia.
Qed.

Lemma fast_loop_amp n i s :
  dsp_amp (for_loop (fast_body dsp_data dsp_amp_incr) i n s)
  = accumulate dsp_amp_incr (dsp_amp s) n.
Proof.
  exact (for_loop_proj dsp_amp (fun a => a [+] dsp_amp_incr) _
           (fast_body_amp) n i s).
Qed.

Lemma fast_loop_phase n i s :
  dsp_phase (for_loop (fast_body dsp_data dsp_amp_incr) i n s)
  = Nat.iter n (fun q => snd (fluid_phase_index_plusplus q)) (dsp_phase s).
Proof.
  exact (for_loop_proj dsp_phase (fun q => snd (fluid_phase_index_plusplus q)) _
           (fast_body_phase) n i s).
Qed.

Lemma interp_loop_amp m n i s :
  dsp_amp (for_loop (interp_body T dsp_data dsp_phase_incr dsp_amp_incr m) i n s)
  = accumulate dsp_amp_incr (dsp_amp s) n.
Proof.
  exact (for_loop_proj dsp_amp (fun a => a [+] dsp_amp_incr) _
           (interp_body_amp m) n i s).
Qed.

Lemma interp_loop_phase m n i s :
  dsp_phase (for_loop (interp_body T dsp_data dsp_phase_incr dsp_amp_incr m) i n s)
  = phase_after dsp_phase_incr (dsp_phase s) n.
Proof.
  exact (for_loop_proj dsp_phase (fun q => fluid_phase_incr q dsp_phase_incr) _
           (interp_body_phase m) n i s).
Qed.

End InterpolationFacts.

Section InterpolationTheorems.
Context {B : build}.
Local Open Scope real_scope.

(** C1.  When the block starts with fractional phase 0 and the phase
    increment is exactly one sample, the k-th output of the block,
    [dsp_buf[dsp_start + k]], is the amplitude current at that sample (the
    initial amplitude after k additions of [dsp_amp_incr]) times the raw
    sample at the k-th successive index, one product of [fluid_real_t] and
    nothing else, whatever [dsp_interp_method] and the coefficient tables
    are. *)
Theorem fast_path_output_is_amp_times_raw_sample :
  forall (T : interp_tables) (dsp_data : Z -> Z) (dsp_start dsp_end : Z)
         (dsp_phase_incr : fluid_phase_t) (dsp_amp_incr : fluid_real_t)
         (dsp_interp_method : Z) (s : dsp_vars) (k : Z),
    fluid_phase_fract (dsp_phase s) = 0 ->
    fluid_phase_fract dsp_phase_incr = 0 ->
    fluid_phase_index dsp_phase_incr = 1 ->
    INT_MIN <= fluid_phase_index (dsp_phase s) <= INT_MAX ->
    0 <= k < dsp_end - dsp_start ->
    dsp_buf (interpolate T dsp_data dsp_start dsp_end dsp_phase_incr dsp_amp_incr
               dsp_interp_method s) (dsp_start + k)
    = accumulate dsp_amp_incr (dsp_amp s) (Z.to_nat k)
      [*] real_of_int (dsp_data (sint32 (fluid_phase_index (dsp_phase s) + k))).
Proof.
  intros T dsp_data dsp_start dsp_end dsp_phase_incr dsp_amp_incr m s k Hp Hf Hi Hr Hk.
  unfold interpolate, fast_path. rewrite Hp, Hf, Hi.
  change ((0 =? 0) && (0 =? 0) && (1 =? 1)) with true. cbv iota.
  unfold for_range.
  replace (dsp_start + k) with (dsp_start + Z.of_nat (Z.to_nat k)) by lia.
  rewrite (loop_output _ _ (fast_body_stores dsp_data dsp_amp_incr)) by lia.
  cbv beta.
  rewrite fast_loop_amp, fast_loop_phase, plusplus_index by exact Hr.
  rewrite Z2Nat.id by lia. reflexivity.
Qed.

(** C7, as the code has it.  For every interpolation method, and on the
    path without interpolation, a block of N samples leaves in [dsp_amp]
    the initial amplitude after N successive additions of [dsp_amp_incr],
    each one rounded, and in [dsp_phase] the initial phase after N
    applications of the phase increment. *)
Theorem render_leaves_end_of_block_amp_and_phase :
  forall (T : interp_tables) (dsp_data : Z -> Z) (dsp_start dsp_end : Z)
         (dsp_phase_incr : fluid_phase_t) (dsp_amp_incr : fluid_real_t)
         (dsp_interp_method : Z) (s : dsp_vars),
    let N := Z.to_nat (dsp_end - dsp_start) in
    let s' := interpolate T dsp_data dsp_start dsp_end dsp_phase_incr dsp_amp_incr
                dsp_interp_method s in
    dsp_amp s' = accumulate dsp_amp_incr (dsp_amp s) N
    /\ dsp_phase s' = phase_after dsp_phase_incr (dsp_phase s) N.
Proof.
  intros T dsp_data dsp_start dsp_end dsp_phase_incr dsp_amp_incr m s N s'.
  subst s'. unfold interpolate, for_range. fold N.
  destruct (fast_path dsp_phase_incr s) eqn:Hfast.
  - unfold fast_path in Hfast.
    apply andb_true_iff in Hfast. destruct Hfast as [Hfast Hi].
    apply andb_true_iff in Hfast. destruct Hfast as [Hp Hf].
    apply Z.eqb_eq in Hp, Hf, Hi.
    split.
    + apply fast_loop_amp.
    + rewrite fast_loop_phase. apply plusplus_iter; assumption.
  - split.
    + apply interp_loop_amp.
    + apply interp_loop_phase.
Qed.

End InterpolationTheorems.

Section InterpolationExamples.
#[local] Existing Instance double_build.

(** The block of the specification's scenario: the table 10, 20, ..., 70
    played at its own pitch from sample 0 with amplitude 1. *)
Lemma fast_path_witness :
  dsp_buf (interpolate unit_tables table_10_70 0 4 {| index := 1; fract := 0 |} real_zero
             FLUID_INTERP_7THORDER (example_vars silence plain_voice None None)) (0 + 2)
  = real_mul (accumulate real_zero real_one (Z.to_nat 2)) (real_of_int (table_10_70 (sint32 (0 + 2)))).
Proof.
  apply (fast_path_output_is_amp_times_raw_sample unit_tables table_10_70 0 4
           {| index := 1; fract := 0 |} real_zero FLUID_INTERP_7THORDER
           (example_vars silence plain_voice None None) 2).
  - reflexivity.
  - reflexivity.
  - reflexivity.
  - unfold INT_MIN, INT_MAX. simpl. lia.
  - lia.
Defined.

(** C7 as stated fails.  Double build, amplitude 1.  With an increment
    of 2^-53 (half an ulp of 1) each addition rounds back to 1: after a
    block of two samples the amplitude is still 1, not 1 + 2 x 2^-53 =
    1 + 2^-52, which is representable.  With an increment of 0.1 and a
    block of three samples the amplitude ends at 0x1.4cccccccccccep+0
    (1.3000000000000003), while 1 + 3 x 0.1 is 0x1.4cccccccccccdp+0
    (1.3).  The float build does the same with an increment of 2^-24. *)
Lemma amp_after_block_is_not_initial_plus_N_times_incr :
  let s := example_vars silence plain_voice None None in
  let s2 := interpolate unit_tables table_10_70 0 2 {| index := 0; fract := 2147483648 |}
              real_half_ulp FLUID_INTERP_4THORDER s in
  let s3 := interpolate unit_tables table_10_70 0 3 {| index := 1; fract := 0 |}
              d_tenth FLUID_INTERP_LINEAR s in
  let f2 := @interpolate float_build (@unit_tables float_build) table_10_70 0 2
              {| index := 1; fract := 0 |} f_half_ulp FLUID_INTERP_NONE unit_block_float in
  dsp_amp s = d_one
  /\ dsp_amp s2 = d_one
  /\ real_add (dsp_amp s) (real_mul (real_of_int 2) real_half_ulp)
     = S754_finite false 4503599627370497 (-52)
  /\ dsp_amp s2 <> real_add (dsp_amp s) (real_mul (real_of_int 2) real_half_ulp)
  /\ dsp_amp s3 = S754_finite false 5854679515581646 (-52)
  /\ real_add (dsp_amp s) (real_mul (real_of_int 3) d_tenth)
     = S754_finite false 5854679515581645 (-52)
  /\ dsp_amp s3 <> real_add (dsp_amp s) (real_mul (real_of_int 3) d_tenth)
  /\ dsp_amp unit_block_float = f_one
  /\ dsp_amp f2 = f_one
  /\ dsp_amp f2
     <> @real_add float_build (dsp_amp unit_block_float)
          (@real_mul float_build (@real_of_int float_build 2) f_half_ulp).
Proof.
  cbv zeta. repeat split; try (vm_compute; reflexivity); vm_compute; discriminate.
Qed.

End InterpolationExamples.

(** ** The voice filter *)

Section FilterFacts.
Context {B : build}.
Local Open Scope real_scope.

(** The loop body of the code is the recurrence of the specification. *)
Lemma filter_sample_is_direct_form_II dsp_i s :
  (dsp_buf (filter_sample dsp_i s) dsp_i,
   dsp_hist1 (filter_sample dsp_i s),
   dsp_hist2 (filter_sample dsp_i s))
  = direct_form_II (dsp_a1 s) (dsp_a2 s) (dsp_b02 s) (dsp_b1 s)
      (dsp_buf s dsp_i) (dsp_hist1 s) (dsp_hist2 s).
Proof.
  unfold filter_sample, direct_form_II. cbn [dsp_buf dsp_hist1 dsp_hist2 set_filter].
  rewrite store_same. reflexivity.
Qed.

Variables x1 x2 y02 y1 : fluid_real_t.

Lemma advance_coeffs_keeps_signal s :
  dsp_buf (advance_coeffs x1 x2 y02 y1 s) = dsp_buf s
  /\ dsp_hist1 (advance_coeffs x1 x2 y02 y1 s) = dsp_hist1 s
  /\ dsp_hist2 (advance_coeffs x1 x2 y02 y1 s) = dsp_hist2 s
  /\ voice (advance_coeffs x1 x2 y02 y1 s) = voice s.
Proof.
  unfold advance_coeffs. destruct (0 <? dsp_filter_coeff_incr_count s); repeat split.
Qed.

Lemma filter_sample_stores dsp_i s :
  dsp_buf (filter_sample dsp_i s) = store (dsp_buf s) dsp_i (filter_output dsp_i s).
Proof. reflexivity. Qed.

Lemma transition_body_stores dsp_i s :
  dsp_buf (transition_body x1 x2 y02 y1 dsp_i s)
  = store (dsp_buf s) dsp_i (filter_output dsp_i s).
Proof.
  unfold transition_body.
  destruct (advance_coeffs_keeps_signal (filter_sample dsp_i s)) as [E _].
  rewrite E. reflexivity.
Qed.

Lemma transition_body_is_direct_form_II dsp_i s :
  (dsp_buf (transition_body x1 x2 y02 y1 dsp_i s) dsp_i,
   dsp_hist1 (transition_body x1 x2 y02 y1 dsp_i s),
   dsp_hist2 (transition_body x1 x2 y02 y1 dsp_i s))
  = direct_form_II (dsp_a1 s) (dsp_a2 s) (dsp_b02 s) (dsp_b1 s)
      (dsp_buf s dsp_i) (dsp_hist1 s) (dsp_hist2 s).
Proof.
  unfold transition_body.
  destruct (advance_coeffs_keeps_signal (filter_sample dsp_i s)) as [E1 [E2 [E3 _]]].
  rewrite E1, E2, E3. apply filter_sample_is_direct_form_II.
Qed.

(** One iteration of the loop that changes the coefficients: the count is
    decremented whatever its value, the increments are added while it was
    positive. *)
Lemma transition_body_coeffs dsp_i s :
  let s' := transition_body x1 x2 y02 y1 dsp_i s in
  let go := 0 <? dsp_filter_coeff_incr_count s in
  dsp_filter_coeff_incr_count s' = sint32 (dsp_filter_coeff_incr_count s - 1)
  /\ dsp_a1 s' = (if go then dsp_a1 s [+] x1 else dsp_a1 s)
  /\ dsp_a2 s' = (if go then dsp_a2 s [+] x2 else dsp_a2 s)
  /\ dsp_b02 s' = (if go then dsp_b02 s [+] y02 else dsp_b02 s)
  /\ dsp_b1 s' = (if go then dsp_b1 s [+] y1 else dsp_b1 s).
Proof.
  cbv zeta. unfold transition_body, advance_coeffs.
  cbn [dsp_filter_coeff_incr_count filter_sample set_filter].
  destruct (0 <? dsp_filter_coeff_incr_count s); repeat split.
Qed.

(** The coefficients and the count after [k] iterations: [min k c]
    increments, and a count of [c - k]. *)
Lemma transition_run (dsp_start : Z) (s : dsp_vars) (k : nat) :
  let c := dsp_filter_coeff_incr_count s in
  let s' := for_loop (transition_body x1 x2 y02 y1) dsp_start k s in
  let n := Nat.min k (Z.to_nat c) in
  INT_MIN <= c - Z.of_nat k -> c <= INT_MAX ->
  dsp_filter_coeff_incr_count s' = c - Z.of_nat k
  /\ dsp_a1 s' = accumulate x1 (dsp_a1 s) n
  /\ dsp_a2 s' = accumulate x2 (dsp_a2 s) n
  /\ dsp_b02 s' = accumulate y02 (dsp_b02 s) n
  /\ dsp_b1 s' = accumulate y1 (dsp_b1 s) n.
Proof.
  cbv zeta. induction k as [|k IH]; intros Hlo Hhi.
  - rewrite Z.sub_0_r. repeat split.
  - rewrite for_loop_snoc.
    destruct IH as [Ec [E1 [E2 [E02 Eb1]]]]; [lia | lia |].
    destruct (transition_body_coeffs (dsp_start + Z.of_nat k)
                (for_loop (transition_body x1 x2 y02 y1) dsp_start k s))
      as [Fc [F1 [F2 [F02 Fb1]]]].
    rewrite Fc, F1, F2, F02, Fb1, Ec, E1, E2, E02, Eb1.
    split; [rewrite sint32_small; lia|].
    destruct (Z.ltb_spec 0 (dsp_filter_coeff_incr_count s - Z.of_nat k)) as [Hgo | Hstop].
    + replace (Nat.min (S k) (Z.to_nat (dsp_filter_coeff_incr_count s)))
        with (S (Nat.min k (Z.to_nat (dsp_filter_coeff_incr_count s)))) by lia.
      repeat split.
    + replace (Nat.min (S k) (Z.to_nat (dsp_filter_coeff_incr_count s)))
        with (Nat.min k (Z.to_nat (dsp_filter_coeff_incr_count s))) by lia.
      repeat split.
Qed.

End FilterFacts.

Section FilterStage.
Context {B : build}.
Variables dsp_start dsp_end : Z.
Local Open Scope real_scope.

Lemma filter_enabled s h :
  zap_almost_zero (dsp_hist1 s) = Some h ->
  filter dsp_start dsp_end true s = Some (filter_loops dsp_start dsp_end (set_hist1 s h)).
Proof. intro Hz. unfold filter. rewrite Hz. reflexivity. Qed.

(** The loops of lines 370-410 are [filter_after] at the length of the
    block; the loop that changes the coefficients then writes them and the
    count back to the voice. *)
Lemma filter_loops_after s :
  let r := filter_after dsp_start s (Z.to_nat (dsp_end - dsp_start)) in
  let s' := filter_loops dsp_start dsp_end s in
  dsp_buf s' = dsp_buf r /\ dsp_hist1 s' = dsp_hist1 r /\ dsp_hist2 s' = dsp_hist2 r
  /\ voice s' = (if 0 <? dsp_filter_coeff_incr_count s
                 then persist_filter (voice r) r else voice r).
Proof.
  cbv zeta. unfold filter_loops, filter_after, filter_body, for_range.
  destruct (0 <? dsp_filter_coeff_incr_count s); repeat split.
Qed.

Lemma filter_after_transition s k :
  0 < dsp_filter_coeff_incr_count s ->
  filter_after dsp_start s k
  = for_loop (transition_body (a1_incr (voice s)) (a2_incr (voice s))
                (b02_incr (voice s)) (b1_incr (voice s))) dsp_start k s.
Proof.
  intro Hc. unfold filter_after, filter_body.
  replace (0 <? dsp_filter_coeff_incr_count s) with true
    by (symmetry; apply Z.ltb_lt; exact Hc).
  reflexivity.
Qed.

(** The coefficients and the count along a block that starts with a
    positive count. *)
Lemma transition_stage s h (k : Z) :
  let c := dsp_filter_coeff_incr_count s in
  let sk := filter_after dsp_start (set_hist1 s h) (Z.to_nat k) in
  0 < c <= INT_MAX -> 0 <= k -> INT_MIN <= c - k ->
  dsp_filter_coeff_incr_count sk = c - k
  /\ dsp_a1 sk = accumulate (a1_incr (voice s)) (dsp_a1 s) (Z.to_nat (Z.min c k))
  /\ dsp_a2 sk = accumulate (a2_incr (voice s)) (dsp_a2 s) (Z.to_nat (Z.min c k))
  /\ dsp_b02 sk = accumulate (b02_incr (voice s)) (dsp_b02 s) (Z.to_nat (Z.min c k))
  /\ dsp_b1 sk = accumulate (b1_incr (voice s)) (dsp_b1 s) (Z.to_nat (Z.min c k)).
Proof.
  cbv zeta. intros Hc Hk Hlo.
  rewrite filter_after_transition by (cbn; lia).
  pose proof (transition_run (a1_incr (voice s)) (a2_incr (voice s)) (b02_incr (voice s))
                (b1_incr (voice s)) dsp_start (set_hist1 s h) (Z.to_nat k)) as H.
  cbv zeta in H. cbn [set_hist1 dsp_filter_coeff_incr_count voice dsp_a1 dsp_a2 dsp_b02 dsp_b1] in H.
  rewrite Z2Nat.id in H by lia.
  replace (Nat.min (Z.to_nat k) (Z.to_nat (dsp_filter_coeff_incr_count s)))
    with (Z.to_nat (Z.min (dsp_filter_coeff_incr_count s) k)) in H by lia.
  cbn [set_hist1 voice]. apply H; lia.
Qed.

Lemma filter_body_stores s0 dsp_i s :
  dsp_buf (filter_body s0 dsp_i s) = store (dsp_buf s) dsp_i (filter_output dsp_i s).
Proof.
  unfold filter_body. destruct (0 <? dsp_filter_coeff_incr_count s0).
  - apply transition_body_stores.
  - apply filter_sample_stores.
Qed.

Lemma filter_body_is_direct_form_II s0 dsp_i s :
  (dsp_buf (filter_body s0 dsp_i s) dsp_i,
   dsp_hist1 (filter_body s0 dsp_i s),
   dsp_hist2 (filter_body s0 dsp_i s))
  = direct_form_II (dsp_a1 s) (dsp_a2 s) (dsp_b02 s) (dsp_b1 s)
      (dsp_buf s dsp_i) (dsp_hist1 s) (dsp_hist2 s).
Proof.
  unfold filter_body. destruct (0 <? dsp_filter_coeff_incr_count s0).
  - apply transition_body_is_direct_form_II.
  - apply filter_sample_is_direct_form_II.
Qed.

(** The loop with constant coefficients leaves them as they were. *)
Lemma static_loop_coeffs s k :
  dsp_filter_coeff_incr_count s <= 0 ->
  let sk := filter_after dsp_start s k in
  dsp_a1 sk = dsp_a1 s /\ dsp_a2 sk = dsp_a2 s /\ dsp_b02 sk = dsp_b02 s
  /\ dsp_b1 sk = dsp_b1 s.
Proof.
  intro Hc. cbv zeta. unfold filter_after, filter_body.
  replace (0 <? dsp_filter_coeff_incr_count s) with false
    by (symmetry; apply Z.ltb_ge; exact Hc).
  repeat split.
  - apply (for_loop_keeps dsp_a1). reflexivity.
  - apply (for_loop_keeps dsp_a2). reflexivity.
  - apply (for_loop_keeps dsp_b02). reflexivity.
  - apply (for_loop_keeps dsp_b1). reflexivity.
Qed.

End FilterStage.

Section FilterTheorems.
Context {B : build}.
Variables dsp_start dsp_end : Z.
Local Open Scope real_scope.

(** C8.  A block of length [len] that starts with a count c > 0 writes the
    count c - len back to the voice (a negative number when c < len): the
    count is decremented at every sample, also after it has reached zero
    (after k samples it is c - k), while the increments are added to the
    four coefficients min(c, len) times. *)
Theorem transition_count_keeps_decreasing :
  forall (s : dsp_vars) (h : fluid_real_t),
    let c := dsp_filter_coeff_incr_count s in
    let len := dsp_end - dsp_start in
    0 < c <= INT_MAX -> 0 <= len -> INT_MIN <= c - len ->
    zap_almost_zero (dsp_hist1 s) = Some h ->
    exists s', filter dsp_start dsp_end true s = Some s'
      /\ filter_coeff_incr_count (voice s') = c - len
      /\ (c < len -> filter_coeff_incr_count (voice s') < 0)
      /\ a1 (voice s') = accumulate (a1_incr (voice s)) (dsp_a1 s) (Z.to_nat (Z.min c len))
      /\ a2 (voice s') = accumulate (a2_incr (voice s)) (dsp_a2 s) (Z.to_nat (Z.min c len))
      /\ b02 (voice s') = accumulate (b02_incr (voice s)) (dsp_b02 s) (Z.to_nat (Z.min c len))
      /\ b1 (voice s') = accumulate (b1_incr (voice s)) (dsp_b1 s) (Z.to_nat (Z.min c len))
      /\ forall k, 0 <= k <= len ->
           dsp_filter_coeff_incr_count
             (filter_after dsp_start (set_hist1 s h) (Z.to_nat k)) = c - k.
Proof.
  intros s h c len Hc Hlen Hlo Hz.
  exists (filter_loops dsp_start dsp_end (set_hist1 s h)).
  split; [apply filter_enabled; exact Hz|].
  destruct (filter_loops_after dsp_start dsp_end (set_hist1 s h)) as [_ [_ [_ Ev]]].
  cbn [set_hist1 dsp_filter_coeff_incr_count] in Ev.
  replace (0 <? dsp_filter_coeff_incr_count s) with true in Ev
    by (symmetry; apply Z.ltb_lt; apply Hc).
  rewrite Ev. cbn [persist_filter filter_coeff_incr_count a1 a2 b02 b1].
  destruct (transition_stage dsp_start s h len Hc Hlen Hlo) as [Ec [E1 [E2 [E02 E1b]]]].
  fold len. rewrite Ec, E1, E2, E02, E1b. fold c.
  repeat split; try lia.
  intros k Hk. apply (transition_stage dsp_start s h k); (exact Hc || fold c; lia).
Qed.

(** C3, as the code has it.  With a count c > 0 and a block of at least
    c samples, after exactly c samples each of a1, a2, b02, b1 is its
    initial value with the increment added c times in succession (each
    addition rounded); the later samples of the block add nothing, and
    these are the coefficients written back to the voice. *)
Theorem transition_coefficients_after_count :
  forall (s : dsp_vars) (h : fluid_real_t),
    let c := dsp_filter_coeff_incr_count s in
    let len := dsp_end - dsp_start in
    0 < c <= INT_MAX -> c <= len -> INT_MIN <= c - len ->
    zap_almost_zero (dsp_hist1 s) = Some h ->
    exists s', filter dsp_start dsp_end true s = Some s'
      /\ (forall k, c <= k <= len ->
            let sk := filter_after dsp_start (set_hist1 s h) (Z.to_nat k) in
            dsp_a1 sk = accumulate (a1_incr (voice s)) (dsp_a1 s) (Z.to_nat c)
            /\ dsp_a2 sk = accumulate (a2_incr (voice s)) (dsp_a2 s) (Z.to_nat c)
            /\ dsp_b02 sk = accumulate (b02_incr (voice s)) (dsp_b02 s) (Z.to_nat c)
            /\ dsp_b1 sk = accumulate (b1_incr (voice s)) (dsp_b1 s) (Z.to_nat c))
      /\ a1 (voice s') = accumulate (a1_incr (voice s)) (dsp_a1 s) (Z.to_nat c)
      /\ a2 (voice s') = accumulate (a2_incr (voice s)) (dsp_a2 s) (Z.to_nat c)
      /\ b02 (voice s') = accumulate (b02_incr (voice s)) (dsp_b02 s) (Z.to_nat c)
      /\ b1 (voice s') = accumulate (b1_incr (voice s)) (dsp_b1 s) (Z.to_nat c).
Proof.
  intros s h c len Hc Hlen Hlo Hz.
  exists (filter_loops dsp_start dsp_end (set_hist1 s h)).
  split; [apply filter_enabled; exact Hz|].
  assert (Hat : forall k, c <= k <= len ->
            let sk := filter_after dsp_start (set_hist1 s h) (Z.to_nat k) in
            dsp_a1 sk = accumulate (a1_incr (voice s)) (dsp_a1 s) (Z.to_nat c)
            /\ dsp_a2 sk = accumulate (a2_incr (voice s)) (dsp_a2 s) (Z.to_nat c)
            /\ dsp_b02 sk = accumulate (b02_incr (voice s)) (dsp_b02 s) (Z.to_nat c)
            /\ dsp_b1 sk = accumulate (b1_incr (voice s)) (dsp_b1 s) (Z.to_nat c)).
  { intros k Hk. cbv zeta.
    destruct (transition_stage dsp_start s h k) as [_ [E1 [E2 [E02 E1b]]]]; try (fold c; lia).
    fold c in E1, E2, E02, E1b.
    replace (Z.min c k) with c in E1, E2, E02, E1b by lia.
    repeat split; assumption. }
  split; [exact Hat|].
  destruct (filter_loops_after dsp_start dsp_end (set_hist1 s h)) as [_ [_ [_ Ev]]].
  cbn [set_hist1 dsp_filter_coeff_incr_count] in Ev.
  replace (0 <? dsp_filter_coeff_incr_count s) with true in Ev
    by (symmetry; apply Z.ltb_lt; apply Hc).
  rewrite Ev. cbn [persist_filter a1 a2 b02 b1].
  fold len. apply (Hat len). lia.
Qed.

(** C4.  With the filter enabled, every sample of the block goes through
    the recurrence of the specification, in the loop with constant
    coefficients and in the loop that changes them alike: the cell
    [dsp_start + k] of the result and the history after the sample are
    [direct_form_II] of the coefficients current at that sample, the cell
    as the interpolation left it, and the history before the sample
    (the history before the first sample being the flushed one).  The
    history the block ends with is the one after its last sample, and
    the loop with constant coefficients never changes them. *)
Theorem filter_applies_direct_form_II :
  forall (s : dsp_vars) (h : fluid_real_t),
    zap_almost_zero (dsp_hist1 s) = Some h ->
    exists s', filter dsp_start dsp_end true s = Some s'
      /\ (forall k, 0 <= k < dsp_end - dsp_start ->
            let before := filter_after dsp_start (set_hist1 s h) (Z.to_nat k) in
            let after := filter_after dsp_start (set_hist1 s h) (S (Z.to_nat k)) in
            (dsp_buf s' (dsp_start + k), dsp_hist1 after, dsp_hist2 after)
            = direct_form_II (dsp_a1 before) (dsp_a2 before) (dsp_b02 before)
                (dsp_b1 before) (dsp_buf s (dsp_start + k))
                (dsp_hist1 before) (dsp_hist2 before)
            /\ (dsp_filter_coeff_incr_count s <= 0 ->
                dsp_a1 before = dsp_a1 s /\ dsp_a2 before = dsp_a2 s
                /\ dsp_b02 before = dsp_b02 s /\ dsp_b1 before = dsp_b1 s))
      /\ filter_after dsp_start (set_hist1 s h) 0 = set_hist1 s h
      /\ dsp_hist1 s'
         = dsp_hist1 (filter_after dsp_start (set_hist1 s h) (Z.to_nat (dsp_end - dsp_start)))
      /\ dsp_hist2 s'
         = dsp_hist2 (filter_after dsp_start (set_hist1 s h) (Z.to_nat (dsp_end - dsp_start))).
Proof.
  intros s h Hz.
  exists (filter_loops dsp_start dsp_end (set_hist1 s h)).
  split; [apply filter_enabled; exact Hz|].
  destruct (filter_loops_after dsp_start dsp_end (set_hist1 s h)) as [Eb [E1 [E2 _]]].
  rewrite Eb, E1, E2.
  split; [|repeat split].
  intros k Hk before after.
  split.
  - assert (Ein : dsp_buf before (dsp_start + k) = dsp_buf s (dsp_start + k)).
    { subst before. unfold filter_after.
      rewrite (loop_frame _ _ (filter_body_stores (set_hist1 s h))) by lia.
      reflexivity. }
    assert (Estep : after = filter_body (set_hist1 s h) (dsp_start + k) before).
    { subst after before. unfold filter_after.
      rewrite for_loop_snoc, Z2Nat.id by lia. reflexivity. }
    assert (Eout : dsp_buf (filter_after dsp_start (set_hist1 s h)
                              (Z.to_nat (dsp_end - dsp_start))) (dsp_start + k)
                   = dsp_buf after (dsp_start + k)).
    { rewrite Estep, filter_body_stores, store_same.
      subst before. unfold filter_after.
      replace (dsp_start + k) with (dsp_start + Z.of_nat (Z.to_nat k)) by lia.
      apply (loop_output _ _ (filter_body_stores (set_hist1 s h))). lia. }
    rewrite Eout, Estep, <- Ein.
    apply filter_body_is_direct_form_II.
  - intro Hc. apply (static_loop_coeffs dsp_start (set_hist1 s h) (Z.to_nat k)). exact Hc.
Qed.

End FilterTheorems.

Section FilterExamples.
#[local] Existing Instance double_build.

(** Three samples with a count of two: the count written back is -1. *)
Lemma transition_count_witness :
  exists s', filter 0 3 true glide = Some s'
    /\ filter_coeff_incr_count (voice s') = 2 - (3 - 0).
Proof.
  destruct (transition_count_keeps_decreasing 0 3 glide real_zero)
    as [s' [E [Hc _]]].
  - cbv. split; [reflexivity | discriminate].
  - lia.
  - cbv. discriminate.
  - reflexivity.
  - exists s'. split; [exact E | exact Hc].
Defined.

(** Three samples with a count of two: a1 is written back after two
    additions of the increment. *)
Lemma transition_coefficients_witness :
  exists s', filter 0 3 true glide = Some s'
    /\ a1 (voice s') = accumulate (a1_incr (voice glide)) (dsp_a1 glide) (Z.to_nat 2).
Proof.
  destruct (transition_coefficients_after_count 0 3 glide real_zero)
    as [s' [E [_ [H1 _]]]].
  - cbv. split; [reflexivity | discriminate].
  - cbv. discriminate.
  - cbv. discriminate.
  - reflexivity.
  - exists s'. split; [exact E | exact H1].
Defined.

(** C3 as stated fails.  Double build, a1 = 1.  With an increment of
    2^-53 and a count of 2, in a block of 2 samples, each addition rounds
    back to 1: the coefficient written to the voice is 1, not
    1 + 2 x 2^-53 = 1 + 2^-52, which is representable.  With an increment
    of 0.1 and a count of 3, in a block of 3 samples, it is
    0x1.4cccccccccccep+0, while 1 + 3 x 0.1 is 0x1.4cccccccccccdp+0.  The
    float build does the same with an increment of 2^-24. *)
Lemma transition_coefficient_is_not_initial_plus_count_times_incr :
  dsp_filter_coeff_incr_count glide = 2
  /\ dsp_a1 glide = d_one
  /\ a1_incr (voice glide) = d_half_ulp
  /\ option_map (fun s' => a1 (voice s')) (filter 0 2 true glide) = Some d_one
  /\ real_add (dsp_a1 glide) (real_mul (real_of_int 2) (a1_incr (voice glide)))
     = S754_finite false 4503599627370497 (-52)
  /\ option_map (fun s' => a1 (voice s')) (filter 0 2 true glide)
     <> Some (real_add (dsp_a1 glide) (real_mul (real_of_int 2) (a1_incr (voice glide))))
  /\ dsp_filter_coeff_incr_count glide_tenth = 3
  /\ option_map (fun s' => a1 (voice s')) (filter 0 3 true glide_tenth)
     = Some (S754_finite false 5854679515581646 (-52))
  /\ real_add (dsp_a1 glide_tenth) (real_mul (real_of_int 3) (a1_incr (voice glide_tenth)))
     = S754_finite false 5854679515581645 (-52)
  /\ option_map (fun s' => a1 (voice s')) (filter 0 3 true glide_tenth)
     <> Some (real_add (dsp_a1 glide_tenth)
               (real_mul (real_of_int 3) (a1_incr (voice glide_tenth))))
  /\ dsp_a1 glide_float = f_one
  /\ option_map (fun s' => a1 (voice s')) (@filter float_build 0 2 true glide_float)
     = Some f_one
  /\ option_map (fun s' => a1 (voice s')) (@filter float_build 0 2 true glide_float)
     <> Some (@real_add float_build (dsp_a1 glide_float)
               (@real_mul float_build (@real_of_int float_build 2)
                  (a1_incr (voice glide_float)))).
Proof.
  repeat split; try (vm_compute; reflexivity); vm_compute; discriminate.
Qed.

(** The second sample of the block through the recurrence. *)
Lemma direct_form_II_witness :
  exists s', filter 0 3 true glide = Some s'
    /\ (let before := filter_after 0 (set_hist1 glide real_zero) (Z.to_nat 1) in
        let after := filter_after 0 (set_hist1 glide real_zero) (S (Z.to_nat 1)) in
        (dsp_buf s' (0 + 1), dsp_hist1 after, dsp_hist2 after)
        = direct_form_II (dsp_a1 before) (dsp_a2 before) (dsp_b02 before)
            (dsp_b1 before) (dsp_buf glide (0 + 1))
            (dsp_hist1 before) (dsp_hist2 before)).
Proof.
  destruct (filter_applies_direct_form_II 0 3 glide real_zero) as [s' [E [H _]]].
  - reflexivity.
  - exists s'. split; [exact E|]. apply (H 1). lia.
Defined.

End FilterExamples.

(** ** Pan, reverb send and chorus send *)

Section MixdownFacts.
Context {B : build}.
Variables dsp_start dsp_end : Z.
Local Open Scope real_scope.

Lemma in_block_of_nat j :
  (dsp_start <=? j) && (j <? dsp_start + Z.of_nat (Z.to_nat (dsp_end - dsp_start)))
  = (dsp_start <=? j) && (j <? dsp_end).
Proof.
  destruct (Z.leb_spec dsp_start j); [|reflexivity]. cbn [andb].
  destruct (Z.ltb_spec j (dsp_start + Z.of_nat (Z.to_nat (dsp_end - dsp_start)))),
           (Z.ltb_spec j dsp_end); lia || reflexivity.
Qed.

(** [dest[i] += amp * src[i]] over the block, cell by cell. *)
Lemma add_scaled_spec amp src dest j :
  add_scaled dsp_start dsp_end amp src dest j
  = if (dsp_start <=? j) && (j <? dsp_end) then dest j [+] amp [*] src j else dest j.
Proof.
  unfold add_scaled, for_range.
  rewrite (accumulate_loop (fun i x => x [+] amp [*] src i)).
  rewrite in_block_of_nat. reflexivity.
Qed.

Lemma centered_loop_signal n i s :
  voice (for_loop centered_body i n s) = voice s
  /\ dsp_buf (for_loop centered_body i n s) = dsp_buf s
  /\ dsp_reverb_buf (for_loop centered_body i n s) = dsp_reverb_buf s
  /\ dsp_chorus_buf (for_loop centered_body i n s) = dsp_chorus_buf s.
Proof.
  repeat split.
  - apply (for_loop_keeps voice). reflexivity.
  - apply (for_loop_keeps dsp_buf). reflexivity.
  - apply (for_loop_keeps dsp_reverb_buf). reflexivity.
  - apply (for_loop_keeps dsp_chorus_buf). reflexivity.
Qed.

(** The centered loop is the same accumulation on the left and on the
    right buffer. *)
Lemma centered_loop_channels n : forall i s,
  dsp_left_buf (for_loop centered_body i n s)
  = for_loop (fun k d => store d k (d k [+] centered_value s k)) i n (dsp_left_buf s)
  /\ dsp_right_buf (for_loop centered_body i n s)
     = for_loop (fun k d => store d k (d k [+] centered_value s k)) i n (dsp_right_buf s).
Proof.
  induction n as [|n IH]; intros i s.
  - split; reflexivity.
  - rewrite !for_loop_snoc. destruct (IH i s) as [El Er].
    destruct (centered_loop_signal n i s) as [Ev [Eb _]].
    unfold centered_body at 1 3. cbn [dsp_left_buf dsp_right_buf set_left set_right voice dsp_buf].
    unfold centered_value. rewrite Ev, Eb, El, Er. split; reflexivity.
Qed.

Lemma centered_loop_spec s j :
  let s' := for_range dsp_start dsp_end centered_body s in
  dsp_left_buf s' j
  = (if (dsp_start <=? j) && (j <? dsp_end)
     then dsp_left_buf s j [+] centered_value s j else dsp_left_buf s j)
  /\ dsp_right_buf s' j
     = (if (dsp_start <=? j) && (j <? dsp_end)
        then dsp_right_buf s j [+] centered_value s j else dsp_right_buf s j).
Proof.
  cbv zeta. unfold for_range.
  destruct (centered_loop_channels (Z.to_nat (dsp_end - dsp_start)) dsp_start s) as [El Er].
  rewrite El, Er.
  rewrite !(accumulate_loop (fun k x => x [+] centered_value s k)).
  rewrite in_block_of_nat. split; reflexivity.
Qed.

(** The pan stage reads the signal and the voice and writes neither, nor
    the send buffers. *)
Lemma pan_stage_keeps s :
  voice (pan_stage dsp_start dsp_end s) = voice s
  /\ dsp_buf (pan_stage dsp_start dsp_end s) = dsp_buf s
  /\ dsp_reverb_buf (pan_stage dsp_start dsp_end s) = dsp_reverb_buf s
  /\ dsp_chorus_buf (pan_stage dsp_start dsp_end s) = dsp_chorus_buf s.
Proof.
  unfold pan_stage. destruct (centered (voice s)).
  - apply centered_loop_signal.
  - destruct (real_nonzero (amp_left (voice s)));
      cbn [voice set_left]; destruct (real_nonzero (amp_right (voice s))); repeat split.
Qed.

Lemma mixdown_channels s :
  dsp_left_buf (mixdown dsp_start dsp_end s) = dsp_left_buf (pan_stage dsp_start dsp_end s)
  /\ dsp_right_buf (mixdown dsp_start dsp_end s) = dsp_right_buf (pan_stage dsp_start dsp_end s).
Proof. split; reflexivity. Qed.

Lemma mixdown_sends s :
  dsp_reverb_buf (mixdown dsp_start dsp_end s)
  = send dsp_start dsp_end (amp_reverb (voice s)) (dsp_buf s) (dsp_reverb_buf s)
  /\ dsp_chorus_buf (mixdown dsp_start dsp_end s)
     = send dsp_start dsp_end (amp_chorus (voice s)) (dsp_buf s) (dsp_chorus_buf s).
Proof.
  destruct (pan_stage_keeps s) as [Ev [Eb [Er Ec]]].
  unfold mixdown, chorus_stage, reverb_stage.
  cbn [dsp_reverb_buf dsp_chorus_buf set_reverb set_chorus voice dsp_buf].
  rewrite Ev, Eb, Er, Ec. split; reflexivity.
Qed.

(** [x != 0.0] is false exactly for the two zeros. *)
Lemma real_nonzero_false_iff (x : fluid_real_t) :
  real_nonzero x = false <-> exists sign, x = S754_zero sign.
Proof.
  unfold real_nonzero, SFeqb. split.
  - destruct x as [sg | sg | | sg m e]; cbn; try discriminate.
    + intros _. now exists sg.
    + destruct sg; discriminate.
    + destruct sg; discriminate.
  - intros [sg ->]. reflexivity.
Qed.

End MixdownFacts.

Section MixdownTheorems.
Context {B : build}.
Variables dsp_start dsp_end : Z.
Local Open Scope real_scope.

(** C5, as the code has it.  When the pan is outside the centered zone,
    a channel whose gain compares equal to zero keeps its destination
    buffer as it was, cell for cell and bit for bit. *)
Theorem zero_gain_channel_is_skipped_when_not_centered :
  forall (s : dsp_vars),
    centered (voice s) = false ->
    (real_nonzero (amp_left (voice s)) = false ->
     dsp_left_buf (mixdown dsp_start dsp_end s) = dsp_left_buf s)
    /\ (real_nonzero (amp_right (voice s)) = false ->
        dsp_right_buf (mixdown dsp_start dsp_end s) = dsp_right_buf s).
Proof.
  intros s Hc.
  destruct (mixdown_channels dsp_start dsp_end s) as [El Er]. rewrite El, Er.
  unfold pan_stage. rewrite Hc. split; intro Hz.
  - rewrite Hz. destruct (real_nonzero (amp_right (voice s))); reflexivity.
  - destruct (real_nonzero (amp_left (voice s))); cbn [voice set_left]; rewrite Hz; reflexivity.
Qed.

(** C6.  A send whose destination is not NULL and whose gain is not zero
    adds gain x dsp_buf[i] to the destination at every index of the block
    and leaves the other cells alone; a NULL destination stays NULL, nothing
    is written.  So for the reverb and for the chorus send. *)
Theorem sends_add_gain_times_sample :
  forall (s : dsp_vars),
    (forall d, dsp_reverb_buf s = Some d ->
               real_nonzero (amp_reverb (voice s)) = true ->
       exists d', dsp_reverb_buf (mixdown dsp_start dsp_end s) = Some d'
         /\ (forall i, dsp_start <= i < dsp_end ->
               d' i = d i [+] amp_reverb (voice s) [*] dsp_buf s i)
         /\ (forall i, ~ dsp_start <= i < dsp_end -> d' i = d i))
    /\ (dsp_reverb_buf s = None -> dsp_reverb_buf (mixdown dsp_start dsp_end s) = None)
    /\ (forall d, dsp_chorus_buf s = Some d ->
                  real_nonzero (amp_chorus (voice s)) = true ->
          exists d', dsp_chorus_buf (mixdown dsp_start dsp_end s) = Some d'
            /\ (forall i, dsp_start <= i < dsp_end ->
                  d' i = d i [+] amp_chorus (voice s) [*] dsp_buf s i)
            /\ (forall i, ~ dsp_start <= i < dsp_end -> d' i = d i))
    /\ (dsp_chorus_buf s = None -> dsp_chorus_buf (mixdown dsp_start dsp_end s) = None).
Proof.
  intro s. destruct (mixdown_sends dsp_start dsp_end s) as [Er Ec]. rewrite Er, Ec.
  assert (Hsend : forall amp d,
            real_nonzero amp = true ->
            exists d', send dsp_start dsp_end amp (dsp_buf s) (Some d) = Some d'
              /\ (forall i, dsp_start <= i < dsp_end -> d' i = d i [+] amp [*] dsp_buf s i)
              /\ (forall i, ~ dsp_start <= i < dsp_end -> d' i = d i)).
  { intros amp d Hnz. exists (add_scaled dsp_start dsp_end amp (dsp_buf s) d).
    unfold send. rewrite Hnz. split; [reflexivity|].
    split; intros i Hi; rewrite add_scaled_spec.
    - rewrite in_block_true by exact Hi. reflexivity.
    - rewrite in_block_false by exact Hi. reflexivity. }
  repeat split.
  - intros d Hd Hnz. rewrite Hd. apply Hsend. exact Hnz.
  - intro Hd. rewrite Hd. reflexivity.
  - intros d Hd Hnz. rewrite Hd. apply Hsend. exact Hnz.
  - intro Hd. rewrite Hd. reflexivity.
Qed.

(** The centered branch as the code has it.  With the pan strictly between
    -0.5 and 0.5
    the left and the right buffer receive, at every index of the block,
    the same value: the product amp_left x dsp_buf[i] as held in the
    single-precision variable [v] (the product itself in the float build,
    the product rounded to single precision in the double build).  Cells
    outside the block are not touched, and amp_right is not read: with any
    other right gain both buffers end the same. *)
Theorem centered_pan_adds_amp_left_product_to_both :
  forall (s : dsp_vars),
    centered (voice s) = true ->
    forall i,
      let v := store_in_float (amp_left (voice s) [*] dsp_buf s i) in
      let s' := mixdown dsp_start dsp_end s in
      (dsp_start <= i < dsp_end ->
       dsp_left_buf s' i = dsp_left_buf s i [+] v
       /\ dsp_right_buf s' i = dsp_right_buf s i [+] v)
      /\ (~ dsp_start <= i < dsp_end ->
          dsp_left_buf s' i = dsp_left_buf s i /\ dsp_right_buf s' i = dsp_right_buf s i)
      /\ (WITH_FLOAT = true -> v = amp_left (voice s) [*] dsp_buf s i)
      /\ (WITH_FLOAT = false ->
          v = SFconvert prec64 emax64
                (SFconvert prec32 emax32 (amp_left (voice s) [*] dsp_buf s i)))
      /\ (forall r,
            let s2 := mixdown dsp_start dsp_end
                        (set_voice s (with_amp_right (voice s) r)) in
            dsp_left_buf s2 i = dsp_left_buf s' i
            /\ dsp_right_buf s2 i = dsp_right_buf s' i).
Proof.
  intros s Hc i v s'. subst s'.
  destruct (mixdown_channels dsp_start dsp_end s) as [El Er]. rewrite El, Er.
  assert (Hpan : forall t, centered (voice t) = true ->
            dsp_left_buf (pan_stage dsp_start dsp_end t) i
            = (if (dsp_start <=? i) && (i <? dsp_end)
               then dsp_left_buf t i [+] centered_value t i else dsp_left_buf t i)
            /\ dsp_right_buf (pan_stage dsp_start dsp_end t) i
               = (if (dsp_start <=? i) && (i <? dsp_end)
                  then dsp_right_buf t i [+] centered_value t i else dsp_right_buf t i)).
  { intros t Ht. unfold pan_stage. rewrite Ht. apply centered_loop_spec. }
  destruct (Hpan s Hc) as [Hl Hr]. rewrite Hl, Hr.
  unfold centered_value. fold v.
  split; [|split; [|split; [|split]]].
  - intro Hi. rewrite in_block_true by exact Hi. split; reflexivity.
  - intro Hi. rewrite in_block_false by exact Hi. split; reflexivity.
  - intro Hf. subst v. unfold store_in_float. rewrite Hf. reflexivity.
  - intro Hf. subst v. unfold store_in_float. rewrite Hf. reflexivity.
  - intro r. cbv zeta.
    destruct (mixdown_channels dsp_start dsp_end (set_voice s (with_amp_right (voice s) r)))
      as [El2 Er2].
    rewrite El2, Er2.
    destruct (Hpan (set_voice s (with_amp_right (voice s) r)) Hc) as [Hl2 Hr2].
    rewrite Hl2, Hr2. split; reflexivity.
Qed.

End MixdownTheorems.

Section MixdownExamples.
#[local] Existing Instance double_build.

(** Panned hard left with a right gain of zero: the right buffer is not
    written. *)
Lemma zero_gain_witness :
  dsp_right_buf (mixdown 0 4 hard_left) = dsp_right_buf hard_left.
Proof.
  destruct (zero_gain_channel_is_skipped_when_not_centered 0 4 hard_left) as [_ H].
  - reflexivity.
  - apply H. reflexivity.
Defined.

(** C5 as stated fails in the centered zone.  Pan 0, left gain 1, right
    gain exactly 0, signal 1 at index 0, silent right buffer: the right
    buffer receives the left product and holds 1 after the block. *)
Lemma centered_pan_writes_channel_of_zero_gain :
  centered (voice centered_left_only) = true
  /\ amp_right (voice centered_left_only) = S754_zero false
  /\ real_nonzero (amp_right (voice centered_left_only)) = false
  /\ dsp_right_buf centered_left_only 0 = S754_zero false
  /\ dsp_right_buf (mixdown 0 1 centered_left_only) 0 = d_one
  /\ dsp_right_buf (mixdown 0 1 centered_left_only) 0 <> dsp_right_buf centered_left_only 0.
Proof.
  repeat split; try (vm_compute; reflexivity). vm_compute. discriminate.
Qed.

(** A reverb send of 0.5 into a silent buffer, no chorus buffer. *)
Lemma sends_witness :
  (exists d', dsp_reverb_buf (mixdown 0 4 with_reverb) = Some d'
     /\ d' 2 = real_add (silence 2) (real_mul (amp_reverb (voice with_reverb))
                                       (dsp_buf with_reverb 2)))
  /\ dsp_chorus_buf (mixdown 0 4 with_reverb) = None.
Proof.
  destruct (sends_add_gain_times_sample 0 4 with_reverb) as [Hr [_ [_ Hc]]].
  split.
  - destruct (Hr silence) as [d' [E [H _]]]; [reflexivity | reflexivity |].
    exists d'. split; [exact E | apply H; lia].
  - apply Hc. reflexivity.
Defined.

(** The centered voice over the signal 1, 2, 3, ...: index 1 of both
    buffers receives the left product. *)
Lemma centered_pan_witness :
  dsp_left_buf (mixdown 0 4 centered_left_only) 1
  = real_add (dsp_left_buf centered_left_only 1)
      (store_in_float (real_mul (amp_left (voice centered_left_only))
                         (dsp_buf centered_left_only 1)))
  /\ dsp_right_buf (mixdown 0 4 centered_left_only) 1
     = real_add (dsp_right_buf centered_left_only 1)
         (store_in_float (real_mul (amp_left (voice centered_left_only))
                            (dsp_buf centered_left_only 1))).
Proof.
  destruct (centered_pan_adds_amp_left_product_to_both 0 4 centered_left_only) with (i := 1)
    as [H _].
  - reflexivity.
  - apply H. lia.
Defined.

(** C9 (double build).  Line 517 declares the variable [v] as [float], not
    [fluid_real_t], so the centered branch does not add the product
    amp_left x dsp_buf[i] that the claim, the non-centered branch and the
    sends add.  Pan 0, left gain 0.1, signal 0.1, silent buffers: the left
    buffer receives the product rounded to single precision
    (0x1.47ae14p-7), not the product (0x1.47ae147ae147cp-7). *)
Theorem centered_pan_adds_rounded_product :
  centered (voice centered_tenth) = true
  /\ real_add (dsp_left_buf centered_tenth 0)
       (real_mul (amp_left (voice centered_tenth)) (dsp_buf centered_tenth 0))
     = S754_finite false 5764607523034236 (-59)
  /\ dsp_left_buf (mixdown 0 1 centered_tenth) 0
     = S754_finite false 5764607394185216 (-59)
  /\ dsp_left_buf (mixdown 0 1 centered_tenth) 0
     <> real_add (dsp_left_buf centered_tenth 0)
          (real_mul (amp_left (voice centered_tenth)) (dsp_buf centered_tenth 0)).
Proof.
  repeat split; try (vm_compute; reflexivity). vm_compute. discriminate.
Qed.

End MixdownExamples.

(** ** Further properties of the block *)

Section FurtherInterpolation.
Context {B : build}.
Variable T : interp_tables.
Variable dsp_data : Z -> Z.
Variable dsp_phase_incr : fluid_phase_t.
Variable dsp_amp_incr : fluid_real_t.
Local Open Scope real_scope.

Lemma interp_body_stores m i s :
  dsp_buf (interp_body T dsp_data dsp_phase_incr dsp_amp_incr m i s)
  = store (dsp_buf s) i
      ((fun i' s' => dsp_buf (interp_body T dsp_data dsp_phase_incr dsp_amp_incr m i' s') i')
         i s).
Proof.
  cbv beta. unfold interp_body.
  destruct (m =? FLUID_INTERP_NONE); [|destruct (m =? FLUID_INTERP_LINEAR);
    [|destruct (m =? FLUID_INTERP_7THORDER)]];
    cbn [dsp_buf none_body linear_body fourth_order_body seventh_order_body set_interp];
    rewrite store_same; reflexivity.
Qed.

(** The interpolation writes the cells of the block only: every cell of
    [dsp_buf] outside [dsp_start, dsp_end) is as before, whatever the
    method. *)
Theorem interpolate_writes_block_only :
  forall (dsp_start dsp_end dsp_interp_method : Z) (s : dsp_vars) (j : Z),
    ~ dsp_start <= j < dsp_end ->
    dsp_buf (interpolate T dsp_data dsp_start dsp_end dsp_phase_incr dsp_amp_incr
               dsp_interp_method s) j
    = dsp_buf s j.
Proof.
  intros dsp_start dsp_end m s j Hj. unfold interpolate, for_range.
  destruct (fast_path dsp_phase_incr s).
  - apply (loop_frame _ _ (fast_body_stores dsp_data dsp_amp_incr)). lia.
  - apply (loop_frame _ _ (interp_body_stores m)). lia.
Qed.

(** FLUID_INTERP_NONE off the special case: the k-th output is the current
    amplitude times the sample at the integer part of the phase after k
    increments. *)
Theorem interp_none_takes_sample_at_phase_index :
  forall (dsp_start dsp_end : Z) (s : dsp_vars) (k : Z),
    fast_path dsp_phase_incr s = false ->
    0 <= k < dsp_end - dsp_start ->
    dsp_buf (interpolate T dsp_data dsp_start dsp_end dsp_phase_incr dsp_amp_incr
               FLUID_INTERP_NONE s) (dsp_start + k)
    = accumulate dsp_amp_incr (dsp_amp s) (Z.to_nat k)
      [*] real_of_int
            (dsp_data (fluid_phase_index
                         (phase_after dsp_phase_incr (dsp_phase s) (Z.to_nat k)))).
Proof.
  intros dsp_start dsp_end s k Hslow Hk.
  unfold interpolate, for_range. rewrite Hslow.
  replace (dsp_start + k) with (dsp_start + Z.of_nat (Z.to_nat k)) by lia.
  rewrite (loop_output _ _ (interp_body_stores FLUID_INTERP_NONE)) by lia.
  cbv beta.
  set (sk := for_loop _ _ _ s).
  change (dsp_buf (none_body dsp_data dsp_phase_incr dsp_amp_incr
                     (dsp_start + Z.of_nat (Z.to_nat k)) sk)
            (dsp_start + Z.of_nat (Z.to_nat k))
          = accumulate dsp_amp_incr (dsp_amp s) (Z.to_nat k)
            [*] real_of_int
                  (dsp_data (fluid_phase_index
                               (phase_after dsp_phase_incr (dsp_phase s) (Z.to_nat k))))).
  cbn [dsp_buf none_body set_interp]. rewrite store_same.
  subst sk. rewrite interp_loop_amp, interp_loop_phase. reflexivity.
Qed.

End FurtherInterpolation.

Section FurtherMixdown.
Context {B : build}.
Variables dsp_start dsp_end : Z.
Local Open Scope real_scope.

(** Outside the centered zone each channel whose gain is not zero
    receives its own gain times the signal at every index of the block. *)
Theorem pan_adds_each_gain_times_sample :
  forall (s : dsp_vars) (i : Z),
    centered (voice s) = false ->
    dsp_start <= i < dsp_end ->
    (real_nonzero (amp_left (voice s)) = true ->
     dsp_left_buf (mixdown dsp_start dsp_end s) i
     = dsp_left_buf s i [+] amp_left (voice s) [*] dsp_buf s i)
    /\ (real_nonzero (amp_right (voice s)) = true ->
        dsp_right_buf (mixdown dsp_start dsp_end s) i
        = dsp_right_buf s i [+] amp_right (voice s) [*] dsp_buf s i).
Proof.
  intros s i Hc Hi.
  pose proof (in_block_true dsp_start dsp_end i Hi) as Hin.
  destruct (mixdown_channels dsp_start dsp_end s) as [El Er]. rewrite El, Er.
  unfold pan_stage. rewrite Hc. split; intro Hnz.
  - rewrite Hnz. cbn [voice set_left].
    destruct (real_nonzero (amp_right (voice s)));
      cbn [dsp_left_buf set_left set_right]; rewrite add_scaled_spec, Hin; reflexivity.
  - destruct (real_nonzero (amp_left (voice s)));
      cbn [voice set_left]; rewrite Hnz;
      cbn [dsp_right_buf dsp_buf set_left set_right]; rewrite add_scaled_spec, Hin; reflexivity.
Qed.

End FurtherMixdown.

Section FurtherExamples.
#[local] Existing Instance double_build.

(** The scenario of the specification: block length 4, the table 10, 20,
    ..., 70, phase at sample 0, increment of exactly one sample, amplitude 1
    and no amplitude increment.  Every interpolation method and every set of
    tables gives 10, 20, 30, 40. *)
Theorem scenario_unit_pitch_outputs_table :
  forall (T : interp_tables) (dsp_interp_method : Z),
    let s' := interpolate T table_10_70 0 4 {| index := 1; fract := 0 |} real_zero
                dsp_interp_method (example_vars silence plain_voice None None) in
    dsp_buf s' 0 = real_of_int 10 /\ dsp_buf s' 1 = real_of_int 20
    /\ dsp_buf s' 2 = real_of_int 30 /\ dsp_buf s' 3 = real_of_int 40.
Proof.
  intros T m. cbv zeta. repeat split; vm_compute; reflexivity.
Qed.

(** Cell 7 of the buffer after a block over the cells 0 to 3. *)
Lemma interpolate_frame_witness :
  dsp_buf (interpolate unit_tables table_10_70 0 4 {| index := 0; fract := 2147483648 |}
             real_zero FLUID_INTERP_LINEAR (example_vars ramp plain_voice None None)) 7
  = ramp 7.
Proof.
  apply (interpolate_writes_block_only unit_tables table_10_70
           {| index := 0; fract := 2147483648 |} real_zero 0 4 FLUID_INTERP_LINEAR
           (example_vars ramp plain_voice None None) 7).
  lia.
Defined.

(** At half speed the fourth output reads the second sample of the table. *)
Lemma interp_none_witness :
  dsp_buf (interpolate unit_tables table_10_70 0 4 {| index := 0; fract := 2147483648 |}
             real_zero FLUID_INTERP_NONE (example_vars silence plain_voice None None)) (0 + 3)
  = real_mul (accumulate real_zero real_one (Z.to_nat 3))
      (real_of_int
         (table_10_70
            (fluid_phase_index
               (phase_after {| index := 0; fract := 2147483648 |} {| index := 0; fract := 0 |}
                  (Z.to_nat 3))))).
Proof.
  apply (interp_none_takes_sample_at_phase_index unit_tables table_10_70
           {| index := 0; fract := 2147483648 |} real_zero 0 4
           (example_vars silence plain_voice None None) 3).
  - reflexivity.
  - lia.
Defined.

(** The whole block on the table 10, 20, ..., 70 at its own pitch, the
    filter disabled, panned hard left with gains 1 and 0: the left buffer
    receives 10, 20, 30, 40 and the right buffer nothing. *)
Example whole_block_unit_pitch_hard_left :
  option_map
    (fun s' => (dsp_left_buf s' 0, dsp_left_buf s' 1, dsp_left_buf s' 2, dsp_left_buf s' 3,
                dsp_right_buf s' 0, dsp_left_buf s' 4))
    (fluid_dsp_core unit_tables table_10_70 0 4 {| index := 1; fract := 0 |} real_zero
       FLUID_INTERP_4THORDER false (example_vars silence (voice hard_left) None None))
  = Some (real_of_int 10, real_of_int 20, real_of_int 30, real_of_int 40,
          real_zero, real_zero).
Proof. vm_compute. reflexivity. Qed.

(** Panned hard left with a left gain of 1: index 1 of the left buffer
    receives the signal. *)
Lemma pan_witness :
  dsp_left_buf (mixdown 0 4 hard_left) 1
  = real_add (dsp_left_buf hard_left 1)
      (real_mul (amp_left (voice hard_left)) (dsp_buf hard_left 1)).
Proof.
  destruct (pan_adds_each_gain_times_sample 0 4 hard_left 1) as [H _].
  - reflexivity.
  - lia.
  - apply H. reflexivity.
Defined.

End FurtherExamples.

(** In the float build 1.0 passes the flush, the denormal 2^-140 does
    not. *)
Lemma zap_float_build_witness :
  @zap_almost_zero float_build f_one = Some f_one
  /\ @zap_almost_zero float_build (S754_finite false 512 (-149)) = Some (S754_zero false).
Proof.
  split.
  - exact (zap_float_build f_one eq_refl).
  - exact (zap_float_build (S754_finite false 512 (-149)) eq_refl).
Defined.

(** ** The 24-bit sample taken apart again *)

(** The two parts of a sample built by fluid_rvoice_get_sample are read back
    from it: the arithmetic shift by eight bits gives the 16-bit part, the
    low eight bits give the low-order byte.  Two pairs of parts that give
    the same sample are the same pair. *)
Theorem get_sample_parts_are_recovered :
  forall (dsp_msb : Z -> Z) (dsp_lsb : Z -> byte) (idx : Z),
    -32768 <= dsp_msb idx <= 32767 ->
    let r := fluid_rvoice_get_sample dsp_msb (Some dsp_lsb) idx in
    Z.shiftr r 8 = dsp_msb idx
    /\ Z.land r 255 = uint8_of_byte (dsp_lsb idx)
    /\ (forall (msb' : Z -> Z) (lsb' : Z -> byte) (idx' : Z),
          -32768 <= msb' idx' <= 32767 ->
          fluid_rvoice_get_sample msb' (Some lsb') idx' = r ->
          msb' idx' = dsp_msb idx /\ lsb' idx' = dsp_lsb idx).
Proof.
  intros dsp_msb dsp_lsb idx Hm r.
  pose proof (uint8_of_byte_range (dsp_lsb idx)) as Hb.
  assert (Er : r = 256 * dsp_msb idx + uint8_of_byte (dsp_lsb idx)).
  { subst r. unfold fluid_rvoice_get_sample. apply get_sample_combine; assumption. }
  assert (Hhi : Z.shiftr r 8 = dsp_msb idx).
  { rewrite Er, Z.shiftr_div_pow2 by lia. change (2 ^ 8) with 256.
    Z.to_euclidean_division_equations. lia. }
  assert (Hlo : Z.land r 255 = uint8_of_byte (dsp_lsb idx)).
  { change 255 with (Z.ones 8). rewrite Z.land_ones by lia. change (2 ^ 8) with 256.
    rewrite Er. Z.to_euclidean_division_equations. lia. }
  split; [exact Hhi|]. split; [exact Hlo|].
  intros msb' lsb' idx' Hm' E.
  pose proof (uint8_of_byte_range (lsb' idx')) as Hb'.
  unfold fluid_rvoice_get_sample in E.
  rewrite (get_sample_combine _ _ Hm' Hb'), Er in E.
  assert (E1 : msb' idx' = dsp_msb idx) by lia.
  split; [exact E1|].
  assert (E2 : uint8_of_byte (lsb' idx') = uint8_of_byte (dsp_lsb idx)) by lia.
  unfold uint8_of_byte in E2. apply N2Z.inj in E2.
  apply (f_equal Byte.of_N) in E2. rewrite !Byte.of_to_N in E2.
  now inversion E2.
Qed.

(** ** The interpolation methods *)

Lemma for_loop_split {St : Type} (body : Z -> St -> St) (n m : nat) :
  forall i s,
    for_loop body i (n + m) s = for_loop body (i + Z.of_nat n) m (for_loop body i n s).
Proof.
  induction n as [|n IH]; intros i s.
  - cbn [for_loop Nat.add]. now rewrite Z.add_0_r.
  - cbn [for_loop Nat.add]. rewrite IH. f_equal. lia.
Qed.

Lemma for_range_empty {St : Type} (dsp_start dsp_end : Z) (body : Z -> St -> St) (s : St) :
  dsp_end <= dsp_start -> for_range dsp_start dsp_end body s = s.
Proof.
  intro H. unfold for_range.
  replace (Z.to_nat (dsp_end - dsp_start)) with O by lia. reflexivity.
Qed.

Lemma for_range_split {St : Type} (dsp_start mid dsp_end : Z) (body : Z -> St -> St) (s : St) :
  dsp_start <= mid <= dsp_end ->
  for_range mid dsp_end body (for_range dsp_start mid body s)
  = for_range dsp_start dsp_end body s.
Proof.
  intro H. unfold for_range.
  replace (Z.to_nat (dsp_end - dsp_start))
    with (Z.to_nat (mid - dsp_start) + Z.to_nat (dsp_end - mid))%nat by lia.
  rewrite for_loop_split. f_equal. lia.
Qed.

Section InterpolationMethods.
Context {B : build}.
Variable T : interp_tables.
Variable dsp_data : Z -> Z.
Variables dsp_start dsp_end : Z.
Variable dsp_phase_incr : fluid_phase_t.
Variable dsp_amp_incr : fluid_real_t.
Local Open Scope real_scope.

(** Off the special case, the cell of the k-th sample holds what the body
    of the method stores from the amplitude and the phase after k steps. *)
Lemma interp_output m (s : dsp_vars) (k : Z) :
  fast_path dsp_phase_incr s = false ->
  0 <= k < dsp_end - dsp_start ->
  exists sk,
    dsp_amp sk = accumulate dsp_amp_incr (dsp_amp s) (Z.to_nat k)
    /\ dsp_phase sk = phase_after dsp_phase_incr (dsp_phase s) (Z.to_nat k)
    /\ dsp_buf (interpolate T dsp_data dsp_start dsp_end dsp_phase_incr dsp_amp_incr m s)
         (dsp_start + k)
       = dsp_buf (interp_body T dsp_data dsp_phase_incr dsp_amp_incr m (dsp_start + k) sk)
           (dsp_start + k).
Proof.
  intros Hslow Hk.
  exists (for_loop (interp_body T dsp_data dsp_phase_incr dsp_amp_incr m) dsp_start
            (Z.to_nat k) s).
  split; [apply interp_loop_amp|]. split; [apply interp_loop_phase|].
  unfold interpolate, for_range. rewrite Hslow.
  replace (dsp_start + k) with (dsp_start + Z.of_nat (Z.to_nat k)) by lia.
  rewrite (loop_output _ _ (interp_body_stores T dsp_data dsp_phase_incr dsp_amp_incr m)) by lia.
  reflexivity.
Qed.

(** FLUID_INTERP_LINEAR off the special case: the k-th output is the
    current amplitude times the two-tap sum a0 x data[i] + a1 x data[i+1],
    [i] the integer part of the phase after k increments and (a0, a1) the
    row of interp_coeff_linear its fraction selects. *)
Theorem interp_linear_is_two_tap_sum :
  forall (s : dsp_vars) (k : Z),
    fast_path dsp_phase_incr s = false ->
    0 <= k < dsp_end - dsp_start ->
    let ph := phase_after dsp_phase_incr (dsp_phase s) (Z.to_nat k) in
    let amp := accumulate dsp_amp_incr (dsp_amp s) (Z.to_nat k) in
    let row := interp_coeff_linear T (fluid_phase_fract_to_tablerow ph) in
    let i := fluid_phase_index ph in
    dsp_buf (interpolate T dsp_data dsp_start dsp_end dsp_phase_incr dsp_amp_incr
               FLUID_INTERP_LINEAR s) (dsp_start + k)
    = amp [*] (Coeff.a0 row [*] real_of_int (dsp_data i)
               [+] Coeff.a1 row [*] real_of_int (dsp_data (i + 1))).
Proof.
  intros s k Hslow Hk ph amp row i.
  destruct (interp_output FLUID_INTERP_LINEAR s k Hslow Hk) as [sk [Ea [Ep E]]].
  rewrite E.
  change (interp_body T dsp_data dsp_phase_incr dsp_amp_incr FLUID_INTERP_LINEAR)
    with (linear_body T dsp_data dsp_phase_incr dsp_amp_incr).
  cbn [dsp_buf linear_body set_interp]. rewrite store_same, Ea, Ep. reflexivity.
Qed.

(** FLUID_INTERP_4THORDER, and every value of the method that is none of
    NONE, LINEAR and 7THORDER (the default of the switch): the k-th output
    is the current amplitude times the four-tap sum over data[i .. i+3]
    with the row of interp_coeff the fraction of the phase selects. *)
Theorem interp_4th_order_is_four_tap_sum :
  forall (dsp_interp_method : Z) (s : dsp_vars) (k : Z),
    dsp_interp_method <> FLUID_INTERP_NONE ->
    dsp_interp_method <> FLUID_INTERP_LINEAR ->
    dsp_interp_method <> FLUID_INTERP_7THORDER ->
    fast_path dsp_phase_incr s = false ->
    0 <= k < dsp_end - dsp_start ->
    let ph := phase_after dsp_phase_incr (dsp_phase s) (Z.to_nat k) in
    let amp := accumulate dsp_amp_incr (dsp_amp s) (Z.to_nat k) in
    let row := interp_coeff T (fluid_phase_fract_to_tablerow ph) in
    let i := fluid_phase_index ph in
    dsp_buf (interpolate T dsp_data dsp_start dsp_end dsp_phase_incr dsp_amp_incr
               dsp_interp_method s) (dsp_start + k)
    = amp [*] (Coeff.a0 row [*] real_of_int (dsp_data i)
               [+] Coeff.a1 row [*] real_of_int (dsp_data (i + 1))
               [+] Coeff.a2 row [*] real_of_int (dsp_data (i + 2))
               [+] Coeff.a3 row [*] real_of_int (dsp_data (i + 3))).
Proof.
  intros m s k H0 H1 H7 Hslow Hk ph amp row i.
  destruct (interp_output m s k Hslow Hk) as [sk [Ea [Ep E]]].
  rewrite E. unfold interp_body.
  apply Z.eqb_neq in H0, H1, H7. rewrite H0, H1, H7.
  cbn [dsp_buf fourth_order_body set_interp]. rewrite store_same, Ea, Ep. reflexivity.
Qed.

(** FLUID_INTERP_7THORDER off the special case: the k-th output is the
    current amplitude times the seven-tap sum over data[i .. i+6] with the
    column of sinc_table7 the fraction of the phase selects. *)
Theorem interp_7th_order_is_seven_tap_sum :
  forall (s : dsp_vars) (k : Z),
    fast_path dsp_phase_incr s = false ->
    0 <= k < dsp_end - dsp_start ->
    let ph := phase_after dsp_phase_incr (dsp_phase s) (Z.to_nat k) in
    let amp := accumulate dsp_amp_incr (dsp_amp s) (Z.to_nat k) in
    let col := fluid_phase_fract_to_tablerow ph in
    let i := fluid_phase_index ph in
    dsp_buf (interpolate T dsp_data dsp_start dsp_end dsp_phase_incr dsp_amp_incr
               FLUID_INTERP_7THORDER s) (dsp_start + k)
    = amp [*] (sinc_table7 T 0 col [*] real_of_int (dsp_data i)
               [+] sinc_table7 T 1 col [*] real_of_int (dsp_data (i + 1))
               [+] sinc_table7 T 2 col [*] real_of_int (dsp_data (i + 2))
               [+] sinc_table7 T 3 col [*] real_of_int (dsp_data (i + 3))
               [+] sinc_table7 T 4 col [*] real_of_int (dsp_data (i + 4))
               [+] sinc_table7 T 5 col [*] real_of_int (dsp_data (i + 5))
               [+] sinc_table7 T 6 col [*] real_of_int (dsp_data (i + 6))).
Proof.
  intros s k Hslow Hk ph amp col i.
  destruct (interp_output FLUID_INTERP_7THORDER s k Hslow Hk) as [sk [Ea [Ep E]]].
  rewrite E.
  change (interp_body T dsp_data dsp_phase_incr dsp_amp_incr FLUID_INTERP_7THORDER)
    with (seventh_order_body T dsp_data dsp_phase_incr dsp_amp_incr).
  cbn [dsp_buf seventh_order_body set_interp]. rewrite store_same, Ea, Ep. reflexivity.
Qed.

End InterpolationMethods.

(** ** What the interpolation leaves alone, and blocks rendered in pieces *)

Section InterpolationFrame.
Context {B : build}.
Variable T : interp_tables.
Variable dsp_data : Z -> Z.
Variable dsp_phase_incr : fluid_phase_t.
Variable dsp_amp_incr : fluid_real_t.
Local Open Scope real_scope.

Ltac interp_keeps :=
  unfold interpolate, for_range;
  match goal with
  | |- ?p (if ?c then _ else _) = _ =>
      destruct c;
      apply (for_loop_keeps p); intros;
      [ reflexivity
      | unfold interp_body;
        repeat match goal with |- context [if ?b then _ else _] => destruct b end;
        reflexivity ]
  end.

Lemma interpolate_keeps dsp_start dsp_end m s :
  let s' := interpolate T dsp_data dsp_start dsp_end dsp_phase_incr dsp_amp_incr m s in
  dsp_hist1 s' = dsp_hist1 s /\ dsp_hist2 s' = dsp_hist2 s
  /\ dsp_a1 s' = dsp_a1 s /\ dsp_a2 s' = dsp_a2 s
  /\ dsp_b02 s' = dsp_b02 s /\ dsp_b1 s' = dsp_b1 s
  /\ dsp_filter_coeff_incr_count s' = dsp_filter_coeff_incr_count s
  /\ voice s' = voice s
  /\ dsp_left_buf s' = dsp_left_buf s /\ dsp_right_buf s' = dsp_right_buf s
  /\ dsp_reverb_buf s' = dsp_reverb_buf s /\ dsp_chorus_buf s' = dsp_chorus_buf s.
Proof.
  intro s'. subst s'. repeat split; interp_keeps.
Qed.

(** The interpolation writes [dsp_buf], [dsp_phase] and [dsp_amp] and
    nothing else: the filter history, coefficients and count, the voice
    and the four destination buffers are as before. *)
Theorem interpolate_keeps_filter_and_mixer_state :
  forall (dsp_start dsp_end dsp_interp_method : Z) (s : dsp_vars),
    let s' := interpolate T dsp_data dsp_start dsp_end dsp_phase_incr dsp_amp_incr
                dsp_interp_method s in
    dsp_hist1 s' = dsp_hist1 s /\ dsp_hist2 s' = dsp_hist2 s
    /\ dsp_a1 s' = dsp_a1 s /\ dsp_a2 s' = dsp_a2 s
    /\ dsp_b02 s' = dsp_b02 s /\ dsp_b1 s' = dsp_b1 s
    /\ dsp_filter_coeff_incr_count s' = dsp_filter_coeff_incr_count s
    /\ voice s' = voice s
    /\ dsp_left_buf s' = dsp_left_buf s /\ dsp_right_buf s' = dsp_right_buf s
    /\ dsp_reverb_buf s' = dsp_reverb_buf s /\ dsp_chorus_buf s' = dsp_chorus_buf s.
Proof.
  intros dsp_start dsp_end m s. exact (interpolate_keeps dsp_start dsp_end m s).
Qed.

(** The fraction of the phase along a loop of the interpolation. *)
Lemma fast_loop_fract n i s :
  fluid_phase_fract (dsp_phase (for_loop (fast_body dsp_data dsp_amp_incr) i n s))
  = fluid_phase_fract (dsp_phase s).
Proof.
  apply (for_loop_keeps (fun t => fluid_phase_fract (dsp_phase t))). reflexivity.
Qed.

Lemma interp_loop_fract m n i s :
  fluid_phase_fract dsp_phase_incr = 0 ->
  0 <= fluid_phase_fract (dsp_phase s) < 4294967296 ->
  fluid_phase_fract
    (dsp_phase (for_loop (interp_body T dsp_data dsp_phase_incr dsp_amp_incr m) i n s))
  = fluid_phase_fract (dsp_phase s).
Proof.
  intros Hf Hr. rewrite interp_loop_phase. unfold phase_after.
  unfold fluid_phase_fract in *.
  induction n as [|n IH]; [reflexivity|].
  change (fract (fluid_phase_incr
                   (Nat.iter n (fun p => fluid_phase_incr p dsp_phase_incr) (dsp_phase s))
                   dsp_phase_incr)
          = fract (dsp_phase s)).
  unfold fluid_phase_incr at 1. cbn [fract].
  rewrite IH, Hf, Z.add_0_r. unfold uint32. apply Z.mod_small. exact Hr.
Qed.

(** The test of the special case gives the same answer after a block as
    before it. *)
Lemma fast_path_after_block dsp_start dsp_end m s :
  0 <= fluid_phase_fract (dsp_phase s) < 4294967296 ->
  fast_path dsp_phase_incr
    (interpolate T dsp_data dsp_start dsp_end dsp_phase_incr dsp_amp_incr m s)
  = fast_path dsp_phase_incr s.
Proof.
  intro Hr. unfold interpolate, for_range.
  destruct (fast_path dsp_phase_incr s) eqn:Hfast.
  - unfold fast_path in *. rewrite fast_loop_fract. exact Hfast.
  - unfold fast_path in *.
    destruct (fluid_phase_fract dsp_phase_incr =? 0) eqn:Hf;
      [|rewrite andb_false_r; reflexivity].
    apply Z.eqb_eq in Hf. rewrite interp_loop_fract by assumption. exact Hfast.
Qed.

(** A block rendered in two pieces is the block rendered at once: the
    interpolation over [dsp_start, mid) followed by the interpolation over
    [mid, dsp_end) leaves every variable as the interpolation over
    [dsp_start, dsp_end) does. *)
Theorem interpolate_in_two_pieces :
  forall (dsp_start mid dsp_end dsp_interp_method : Z) (s : dsp_vars),
    dsp_start <= mid <= dsp_end ->
    0 <= fluid_phase_fract (dsp_phase s) < 4294967296 ->
    interpolate T dsp_data mid dsp_end dsp_phase_incr dsp_amp_incr dsp_interp_method
      (interpolate T dsp_data dsp_start mid dsp_phase_incr dsp_amp_incr dsp_interp_method s)
    = interpolate T dsp_data dsp_start dsp_end dsp_phase_incr dsp_amp_incr
        dsp_interp_method s.
Proof.
  intros dsp_start mid dsp_end m s Hmid Hr.
  unfold interpolate at 1.
  rewrite fast_path_after_block by exact Hr.
  unfold interpolate.
  destruct (fast_path dsp_phase_incr s); apply for_range_split; exact Hmid.
Qed.

End InterpolationFrame.

(** ** What the filter leaves alone *)

Section FilterFrame.
Context {B : build}.
Variables dsp_start dsp_end : Z.
Local Open Scope real_scope.

Ltac filter_keeps :=
  match goal with
  | |- ?p (for_loop _ _ _ ?s0) = _ =>
      transitivity (p s0); [|reflexivity];
      apply (for_loop_keeps p); intros;
      unfold transition_body, advance_coeffs;
      repeat match goal with |- context [if ?b then _ else _] => destruct b end;
      reflexivity
  end.

Lemma filter_result flag s s' :
  filter dsp_start dsp_end flag s = Some s' ->
  (flag = false /\ s' = s)
  \/ (flag = true /\ exists h, zap_almost_zero (dsp_hist1 s) = Some h
                      /\ s' = filter_loops dsp_start dsp_end (set_hist1 s h)).
Proof.
  unfold filter. destruct flag.
  - destruct (zap_almost_zero (dsp_hist1 s)) as [h|]; [|discriminate].
    intro E. injection E as <-. right. split; [reflexivity|]. now exists h.
  - intro E. injection E as <-. left. split; reflexivity.
Qed.

Lemma filter_frame flag s s' :
  filter dsp_start dsp_end flag s = Some s' ->
  dsp_phase s' = dsp_phase s /\ dsp_amp s' = dsp_amp s
  /\ dsp_left_buf s' = dsp_left_buf s /\ dsp_right_buf s' = dsp_right_buf s
  /\ dsp_reverb_buf s' = dsp_reverb_buf s /\ dsp_chorus_buf s' = dsp_chorus_buf s
  /\ (forall j, ~ dsp_start <= j < dsp_end -> dsp_buf s' j = dsp_buf s j).
Proof.
  intro E.
  destruct (filter_result flag s s' E) as [[_ ->] | [_ [h [_ ->]]]].
  - repeat split.
  - assert (Hbuf : forall j, ~ dsp_start <= j < dsp_end ->
                     dsp_buf (filter_loops dsp_start dsp_end (set_hist1 s h)) j = dsp_buf s j).
    { intros j Hj.
      destruct (filter_loops_after dsp_start dsp_end (set_hist1 s h)) as [Eb _].
      rewrite Eb. unfold filter_after.
      rewrite (loop_frame _ _ (filter_body_stores (set_hist1 s h))) by lia.
      reflexivity. }
    repeat (split; [|try exact Hbuf]);
      unfold filter_loops, for_range;
      destruct (0 <? dsp_filter_coeff_incr_count (set_hist1 s h));
      cbn [set_voice dsp_phase dsp_amp dsp_left_buf dsp_right_buf dsp_reverb_buf
           dsp_chorus_buf];
      filter_keeps.
Qed.

Lemma filter_keeps_mixer_parameters flag s s' :
  filter dsp_start dsp_end flag s = Some s' ->
  pan (voice s') = pan (voice s)
  /\ amp_left (voice s') = amp_left (voice s) /\ amp_right (voice s') = amp_right (voice s)
  /\ amp_reverb (voice s') = amp_reverb (voice s)
  /\ amp_chorus (voice s') = amp_chorus (voice s)
  /\ a1_incr (voice s') = a1_incr (voice s) /\ a2_incr (voice s') = a2_incr (voice s)
  /\ b02_incr (voice s') = b02_incr (voice s) /\ b1_incr (voice s') = b1_incr (voice s).
Proof.
  intro E.
  destruct (filter_result flag s s' E) as [[_ ->] | [_ [h [_ ->]]]].
  - repeat split.
  - unfold filter_loops, for_range.
    destruct (0 <? dsp_filter_coeff_incr_count (set_hist1 s h));
      cbn [set_voice voice persist_filter pan amp_left amp_right amp_reverb amp_chorus
           a1_incr a2_incr b02_incr b1_incr];
      repeat split;
      match goal with
      | |- ?f (voice (for_loop _ _ _ ?s0)) = _ =>
          transitivity (f (voice s0)); [|reflexivity];
          apply (for_loop_keeps (fun t => f (voice t))); intros;
          unfold transition_body, advance_coeffs;
          repeat match goal with |- context [if ?b then _ else _] => destruct b end;
          reflexivity
      end.
Qed.

(** The filter stage writes the cells of the block, the history, and in
    the mode that changes the coefficients the coefficients and the count;
    it never touches the phase, the amplitude or a destination buffer, nor
    a cell of [dsp_buf] outside the block. *)
Theorem filter_keeps_phase_amp_and_destinations :
  forall (dsp_use_filter_flag : bool) (s s' : dsp_vars),
    filter dsp_start dsp_end dsp_use_filter_flag s = Some s' ->
    dsp_phase s' = dsp_phase s /\ dsp_amp s' = dsp_amp s
    /\ dsp_left_buf s' = dsp_left_buf s /\ dsp_right_buf s' = dsp_right_buf s
    /\ dsp_reverb_buf s' = dsp_reverb_buf s /\ dsp_chorus_buf s' = dsp_chorus_buf s
    /\ (forall j, ~ dsp_start <= j < dsp_end -> dsp_buf s' j = dsp_buf s j).
Proof.
  intros flag s s' E. exact (filter_frame flag s s' E).
Qed.

(** Whatever the filter stage stores in the voice (lines 392-396 store the
    coefficients and the count), the pan, the four gains and the four
    coefficient increments of the voice are as before: the mixdown that
    follows mixes with the gains the voice had on entry. *)
Theorem filter_keeps_pan_gains_and_increments :
  forall (dsp_use_filter_flag : bool) (s s' : dsp_vars),
    filter dsp_start dsp_end dsp_use_filter_flag s = Some s' ->
    pan (voice s') = pan (voice s)
    /\ amp_left (voice s') = amp_left (voice s) /\ amp_right (voice s') = amp_right (voice s)
    /\ amp_reverb (voice s') = amp_reverb (voice s)
    /\ amp_chorus (voice s') = amp_chorus (voice s)
    /\ a1_incr (voice s') = a1_incr (voice s) /\ a2_incr (voice s') = a2_incr (voice s)
    /\ b02_incr (voice s') = b02_incr (voice s) /\ b1_incr (voice s') = b1_incr (voice s).
Proof.
  intros flag s s' E. exact (filter_keeps_mixer_parameters flag s s' E).
Qed.

(** With a count that is not positive the filter runs with constant
    coefficients: the coefficients, the count (which this loop does not
    decrement) and the voice are as before. *)
Theorem static_filter_keeps_coefficients_count_and_voice :
  forall (s s' : dsp_vars),
    dsp_filter_coeff_incr_count s <= 0 ->
    filter dsp_start dsp_end true s = Some s' ->
    dsp_a1 s' = dsp_a1 s /\ dsp_a2 s' = dsp_a2 s
    /\ dsp_b02 s' = dsp_b02 s /\ dsp_b1 s' = dsp_b1 s
    /\ dsp_filter_coeff_incr_count s' = dsp_filter_coeff_incr_count s
    /\ voice s' = voice s.
Proof.
  intros s s' Hc E.
  destruct (filter_result true s s' E) as [[Hf _] | [_ [h [_ ->]]]]; [discriminate|].
  unfold filter_loops, for_range.
  replace (0 <? dsp_filter_coeff_incr_count (set_hist1 s h)) with false
    by (symmetry; apply Z.ltb_ge; exact Hc).
  repeat split; filter_keeps.
Qed.

End FilterFrame.

(** ** Silence through the filter *)

Section FilterSilence.
Context {B : build}.
Variables dsp_start dsp_end : Z.
Local Open Scope real_scope.

Lemma mul_finite_zero a z : is_finite a = true -> is_zero z = true -> is_zero (a [*] z) = true.
Proof. destruct a, z; cbn; congruence. Qed.

Lemma sub_zero_zero x y : is_zero x = true -> is_zero y = true -> is_zero (x [-] y) = true.
Proof. destruct x as [[|]| | |], y as [[|]| | |]; cbn; congruence. Qed.

Lemma add_zero_zero x y : is_zero x = true -> is_zero y = true -> is_zero (x [+] y) = true.
Proof. destruct x as [[|]| | |], y as [[|]| | |]; cbn; congruence. Qed.

(** The flush of a zero is +0.0, in both builds. *)
Lemma zap_zero x : is_zero x = true -> zap_almost_zero x = Some (S754_zero false).
Proof.
  destruct x as [sg| | |]; cbn; try discriminate. intros _.
  unfold zap_almost_zero. destruct WITH_FLOAT; destruct sg; reflexivity.
Qed.

(** One sample: a zero through the recurrence, from a zero history and
    with finite coefficients, is a zero and leaves a zero history. *)
Lemma direct_form_II_silence x1 x2 y02 y1 input h1 h2 :
  is_finite x1 = true -> is_finite x2 = true -> is_finite y02 = true -> is_finite y1 = true ->
  is_zero input = true -> is_zero h1 = true -> is_zero h2 = true ->
  let r := direct_form_II x1 x2 y02 y1 input h1 h2 in
  is_zero (fst (fst r)) = true /\ is_zero (snd (fst r)) = true /\ is_zero (snd r) = true.
Proof.
  intros F1 F2 F02 Fb1 Zi Z1 Z2. cbv zeta. unfold direct_form_II. cbn [fst snd].
  assert (Zc : is_zero (input [-] x1 [*] h1 [-] x2 [*] h2) = true).
  { apply sub_zero_zero; [apply sub_zero_zero|]; auto using mul_finite_zero. }
  repeat split; [|exact Zc|exact Z1].
  apply add_zero_zero; apply mul_finite_zero; auto using add_zero_zero.
Qed.

(** The history stays zero along the loop with constant coefficients. *)
Lemma static_silence_run (s : dsp_vars) (k : nat) :
  is_finite (dsp_a1 s) = true -> is_finite (dsp_a2 s) = true ->
  is_finite (dsp_b02 s) = true -> is_finite (dsp_b1 s) = true ->
  is_zero (dsp_hist1 s) = true -> is_zero (dsp_hist2 s) = true ->
  (forall i, dsp_start <= i < dsp_start + Z.of_nat k -> is_zero (dsp_buf s i) = true) ->
  let sk := for_loop filter_sample dsp_start k s in
  is_zero (dsp_hist1 sk) = true /\ is_zero (dsp_hist2 sk) = true.
Proof.
  intros F1 F2 F02 Fb1 Z1 Z2. cbv zeta.
  induction k as [|k IH]; intro Zb.
  - split; assumption.
  - destruct IH as [H1 H2]; [intros i Hi; apply Zb; lia|].
    rewrite for_loop_snoc.
    set (sk := for_loop filter_sample dsp_start k s) in *.
    pose proof (filter_sample_is_direct_form_II (dsp_start + Z.of_nat k) sk) as E.
    assert (Ea1 : dsp_a1 sk = dsp_a1 s) by (apply (for_loop_keeps dsp_a1); reflexivity).
    assert (Ea2 : dsp_a2 sk = dsp_a2 s) by (apply (for_loop_keeps dsp_a2); reflexivity).
    assert (Eb02 : dsp_b02 sk = dsp_b02 s) by (apply (for_loop_keeps dsp_b02); reflexivity).
    assert (Eb1 : dsp_b1 sk = dsp_b1 s) by (apply (for_loop_keeps dsp_b1); reflexivity).
    assert (Ein : dsp_buf sk (dsp_start + Z.of_nat k) = dsp_buf s (dsp_start + Z.of_nat k)).
    { subst sk. apply (loop_frame _ _ filter_sample_stores). lia. }
    destruct (direct_form_II_silence (dsp_a1 sk) (dsp_a2 sk) (dsp_b02 sk) (dsp_b1 sk)
                (dsp_buf sk (dsp_start + Z.of_nat k)) (dsp_hist1 sk) (dsp_hist2 sk))
      as [_ [R1 R2]]; try congruence.
    { rewrite Ein. apply Zb. lia. }
    rewrite <- E in R1, R2. cbn [fst snd] in R1, R2. split; assumption.
Qed.

(** Silence stays silence.  With constant finite coefficients (no
    infinity, no NaN), a history of zeros and zeros in every cell of the
    block, the filter stage leaves zeros in every cell of the block and a
    history of zeros. *)
Theorem static_filter_keeps_silence :
  forall (s : dsp_vars),
    dsp_filter_coeff_incr_count s <= 0 ->
    is_finite (dsp_a1 s) = true -> is_finite (dsp_a2 s) = true ->
    is_finite (dsp_b02 s) = true -> is_finite (dsp_b1 s) = true ->
    is_zero (dsp_hist1 s) = true -> is_zero (dsp_hist2 s) = true ->
    (forall i, dsp_start <= i < dsp_end -> is_zero (dsp_buf s i) = true) ->
    exists s', filter dsp_start dsp_end true s = Some s'
      /\ (forall i, dsp_start <= i < dsp_end -> is_zero (dsp_buf s' i) = true)
      /\ is_zero (dsp_hist1 s') = true /\ is_zero (dsp_hist2 s') = true.
Proof.
  intros s Hc F1 F2 F02 Fb1 Z1 Z2 Zb.
  set (s0 := set_hist1 s (S754_zero false)).
  exists (filter_loops dsp_start dsp_end s0).
  split; [apply filter_enabled, zap_zero; exact Z1|].
  assert (Erun : filter_loops dsp_start dsp_end s0
                 = for_loop filter_sample dsp_start (Z.to_nat (dsp_end - dsp_start)) s0).
  { unfold filter_loops, for_range.
    replace (0 <? dsp_filter_coeff_incr_count s0) with false
      by (symmetry; apply Z.ltb_ge; exact Hc).
    reflexivity. }
  rewrite Erun.
  assert (Hrun : forall k, (k <= Z.to_nat (dsp_end - dsp_start))%nat ->
            is_zero (dsp_hist1 (for_loop filter_sample dsp_start k s0)) = true
            /\ is_zero (dsp_hist2 (for_loop filter_sample dsp_start k s0)) = true).
  { intros k Hk. apply (static_silence_run s0 k); try assumption; try reflexivity.
    intros i Hi. apply Zb. lia. }
  split; [|apply Hrun; lia].
  intros i Hi.
  replace i with (dsp_start + Z.of_nat (Z.to_nat (i - dsp_start))) by lia.
  rewrite (loop_output _ _ filter_sample_stores) by lia.
  set (k := Z.to_nat (i - dsp_start)).
  set (sk := for_loop filter_sample dsp_start k s0).
  destruct (Hrun k) as [H1 H2]; [lia|]. fold sk in H1, H2.
  assert (Ea1 : dsp_a1 sk = dsp_a1 s)
    by (transitivity (dsp_a1 s0); [apply (for_loop_keeps dsp_a1)|]; reflexivity).
  assert (Ea2 : dsp_a2 sk = dsp_a2 s)
    by (transitivity (dsp_a2 s0); [apply (for_loop_keeps dsp_a2)|]; reflexivity).
  assert (Eb02 : dsp_b02 sk = dsp_b02 s)
    by (transitivity (dsp_b02 s0); [apply (for_loop_keeps dsp_b02)|]; reflexivity).
  assert (Eb1 : dsp_b1 sk = dsp_b1 s)
    by (transitivity (dsp_b1 s0); [apply (for_loop_keeps dsp_b1)|]; reflexivity).
  assert (Ein : dsp_buf sk (dsp_start + Z.of_nat k) = dsp_buf s (dsp_start + Z.of_nat k)).
  { subst sk. rewrite (loop_frame _ _ filter_sample_stores) by lia. reflexivity. }
  unfold filter_output.
  apply direct_form_II_silence; try congruence.
  rewrite Ein. apply Zb. lia.
Qed.

End FilterSilence.

(** ** What the mixdown leaves alone, and blocks mixed in pieces *)

Section MixdownFrame.
Context {B : build}.
Local Open Scope real_scope.

Lemma pan_stage_channels dsp_start dsp_end s :
  dsp_left_buf (pan_stage dsp_start dsp_end s)
  = pan_left_result dsp_start dsp_end (voice s) (dsp_buf s) (dsp_left_buf s)
  /\ dsp_right_buf (pan_stage dsp_start dsp_end s)
     = pan_right_result dsp_start dsp_end (voice s) (dsp_buf s) (dsp_right_buf s).
Proof.
  unfold pan_stage, pan_left_result, pan_right_result.
  destruct (centered (voice s)).
  - apply centered_loop_channels.
  - destruct (real_nonzero (amp_left (voice s))); cbn [voice set_left];
      destruct (real_nonzero (amp_right (voice s))); split; reflexivity.
Qed.

Lemma pan_stage_keeps_filter_state dsp_start dsp_end s :
  let s' := pan_stage dsp_start dsp_end s in
  dsp_phase s' = dsp_phase s /\ dsp_amp s' = dsp_amp s
  /\ dsp_hist1 s' = dsp_hist1 s /\ dsp_hist2 s' = dsp_hist2 s
  /\ dsp_a1 s' = dsp_a1 s /\ dsp_a2 s' = dsp_a2 s
  /\ dsp_b02 s' = dsp_b02 s /\ dsp_b1 s' = dsp_b1 s
  /\ dsp_filter_coeff_incr_count s' = dsp_filter_coeff_incr_count s.
Proof.
  cbv zeta. unfold pan_stage. destruct (centered (voice s)).
  - unfold for_range.
    repeat split;
      match goal with |- ?p (for_loop _ _ _ _) = _ => apply (for_loop_keeps p); reflexivity end.
  - destruct (real_nonzero (amp_left (voice s))); cbn [voice set_left];
      destruct (real_nonzero (amp_right (voice s))); repeat split.
Qed.

Lemma mixdown_keeps dsp_start dsp_end s :
  let s' := mixdown dsp_start dsp_end s in
  dsp_buf s' = dsp_buf s /\ voice s' = voice s
  /\ dsp_phase s' = dsp_phase s /\ dsp_amp s' = dsp_amp s
  /\ dsp_hist1 s' = dsp_hist1 s /\ dsp_hist2 s' = dsp_hist2 s
  /\ dsp_a1 s' = dsp_a1 s /\ dsp_a2 s' = dsp_a2 s
  /\ dsp_b02 s' = dsp_b02 s /\ dsp_b1 s' = dsp_b1 s
  /\ dsp_filter_coeff_incr_count s' = dsp_filter_coeff_incr_count s.
Proof.
  intro s'. subst s'.
  destruct (pan_stage_keeps dsp_start dsp_end s) as [Ev [Eb _]].
  pose proof (pan_stage_keeps_filter_state dsp_start dsp_end s) as H. cbv zeta in H.
  unfold mixdown, chorus_stage, reverb_stage.
  cbn [set_chorus set_reverb dsp_buf voice dsp_phase dsp_amp dsp_hist1 dsp_hist2
       dsp_a1 dsp_a2 dsp_b02 dsp_b1 dsp_filter_coeff_incr_count].
  split; [exact Eb|]. split; [exact Ev|]. exact H.
Qed.

(** The mixdown reads the signal and the voice and writes the four
    destination buffers only: [dsp_buf], the voice, the phase, the
    amplitude and the filter variables are as before. *)
Theorem mixdown_keeps_signal_voice_and_filter_state :
  forall (dsp_start dsp_end : Z) (s : dsp_vars),
    let s' := mixdown dsp_start dsp_end s in
    dsp_buf s' = dsp_buf s /\ voice s' = voice s
    /\ dsp_phase s' = dsp_phase s /\ dsp_amp s' = dsp_amp s
    /\ dsp_hist1 s' = dsp_hist1 s /\ dsp_hist2 s' = dsp_hist2 s
    /\ dsp_a1 s' = dsp_a1 s /\ dsp_a2 s' = dsp_a2 s
    /\ dsp_b02 s' = dsp_b02 s /\ dsp_b1 s' = dsp_b1 s
    /\ dsp_filter_coeff_incr_count s' = dsp_filter_coeff_incr_count s.
Proof.
  intros dsp_start dsp_end s. exact (mixdown_keeps dsp_start dsp_end s).
Qed.

(** A send whose gain compares equal to zero is skipped: its destination
    buffer, NULL or not, is as before.  So for the reverb and for the
    chorus send. *)
Theorem zero_gain_send_is_skipped :
  forall (dsp_start dsp_end : Z) (s : dsp_vars),
    (real_nonzero (amp_reverb (voice s)) = false ->
     dsp_reverb_buf (mixdown dsp_start dsp_end s) = dsp_reverb_buf s)
    /\ (real_nonzero (amp_chorus (voice s)) = false ->
        dsp_chorus_buf (mixdown dsp_start dsp_end s) = dsp_chorus_buf s).
Proof.
  intros dsp_start dsp_end s.
  destruct (mixdown_sends dsp_start dsp_end s) as [Er Ec]. rewrite Er, Ec.
  unfold send. split; intro Hz; rewrite Hz.
  - destruct (dsp_reverb_buf s); reflexivity.
  - destruct (dsp_chorus_buf s); reflexivity.
Qed.

Lemma add_scaled_split dsp_start mid dsp_end amp src dest :
  dsp_start <= mid <= dsp_end ->
  add_scaled mid dsp_end amp src (add_scaled dsp_start mid amp src dest)
  = add_scaled dsp_start dsp_end amp src dest.
Proof. intro H. unfold add_scaled. apply for_range_split. exact H. Qed.

Lemma send_split dsp_start mid dsp_end amp src dest :
  dsp_start <= mid <= dsp_end ->
  send mid dsp_end amp src (send dsp_start mid amp src dest)
  = send dsp_start dsp_end amp src dest.
Proof.
  intro H. unfold send. destruct dest as [d|]; [|reflexivity].
  destruct (real_nonzero amp) eqn:Hnz; rewrite ?Hnz; [|reflexivity].
  now rewrite add_scaled_split.
Qed.

Lemma pan_result_split dsp_start mid dsp_end v buf d :
  dsp_start <= mid <= dsp_end ->
  pan_left_result mid dsp_end v buf (pan_left_result dsp_start mid v buf d)
  = pan_left_result dsp_start dsp_end v buf d
  /\ pan_right_result mid dsp_end v buf (pan_right_result dsp_start mid v buf d)
     = pan_right_result dsp_start dsp_end v buf d.
Proof.
  intro H. unfold pan_left_result, pan_right_result.
  destruct (centered v).
  - split; apply for_range_split; exact H.
  - destruct (real_nonzero (amp_left v)), (real_nonzero (amp_right v));
      split; try reflexivity; apply add_scaled_split; exact H.
Qed.

(** A block mixed in two pieces is the block mixed at once: the mixdown
    over [dsp_start, mid) followed by the mixdown over [mid, dsp_end) leaves
    the four destination buffers as the mixdown over [dsp_start, dsp_end)
    does. *)
Theorem mixdown_in_two_pieces :
  forall (dsp_start mid dsp_end : Z) (s : dsp_vars),
    dsp_start <= mid <= dsp_end ->
    let s1 := mixdown mid dsp_end (mixdown dsp_start mid s) in
    let s2 := mixdown dsp_start dsp_end s in
    dsp_left_buf s1 = dsp_left_buf s2 /\ dsp_right_buf s1 = dsp_right_buf s2
    /\ dsp_reverb_buf s1 = dsp_reverb_buf s2 /\ dsp_chorus_buf s1 = dsp_chorus_buf s2.
Proof.
  intros dsp_start mid dsp_end s Hmid s1 s2. subst s1 s2.
  set (t := mixdown dsp_start mid s).
  assert (Ev : voice t = voice s /\ dsp_buf t = dsp_buf s).
  { subst t. destruct (pan_stage_keeps dsp_start mid s) as [Ev [Eb _]].
    unfold mixdown, chorus_stage, reverb_stage. cbn [set_chorus set_reverb voice dsp_buf].
    split; assumption. }
  destruct Ev as [Ev Eb].
  destruct (mixdown_channels mid dsp_end t) as [El1 Er1].
  destruct (mixdown_channels dsp_start dsp_end s) as [El2 Er2].
  destruct (mixdown_channels dsp_start mid s) as [El0 Er0]. fold t in El0, Er0.
  destruct (pan_stage_channels mid dsp_end t) as [Pl1 Pr1].
  destruct (pan_stage_channels dsp_start dsp_end s) as [Pl2 Pr2].
  destruct (pan_stage_channels dsp_start mid s) as [Pl0 Pr0].
  destruct (pan_result_split dsp_start mid dsp_end (voice s) (dsp_buf s) (dsp_left_buf s) Hmid)
    as [Sl _].
  destruct (pan_result_split dsp_start mid dsp_end (voice s) (dsp_buf s) (dsp_right_buf s) Hmid)
    as [_ Sr].
  destruct (mixdown_sends mid dsp_end t) as [Rv1 Ch1].
  destruct (mixdown_sends dsp_start dsp_end s) as [Rv2 Ch2].
  destruct (mixdown_sends dsp_start mid s) as [Rv0 Ch0]. fold t in Rv0, Ch0.
  repeat split.
  - rewrite El1, Pl1, Ev, Eb, El0, Pl0, El2, Pl2. exact Sl.
  - rewrite Er1, Pr1, Ev, Eb, Er0, Pr0, Er2, Pr2. exact Sr.
  - rewrite Rv1, Ev, Eb, Rv0, Rv2. apply send_split. exact Hmid.
  - rewrite Ch1, Ev, Eb, Ch0, Ch2. apply send_split. exact Hmid.
Qed.

(** In the float build the centered branch is a shortcut, not another
    signal path: when the two gains are equal and not zero, each buffer
    receives its own gain times the signal at every index of the block,
    whatever the pan. *)
Theorem equal_gains_mix_alike_whatever_the_pan :
  forall (dsp_start dsp_end : Z) (s : dsp_vars) (i : Z),
    WITH_FLOAT = true ->
    amp_left (voice s) = amp_right (voice s) ->
    real_nonzero (amp_left (voice s)) = true ->
    let s' := mixdown dsp_start dsp_end s in
    (dsp_start <= i < dsp_end ->
     dsp_left_buf s' i = dsp_left_buf s i [+] amp_left (voice s) [*] dsp_buf s i
     /\ dsp_right_buf s' i = dsp_right_buf s i [+] amp_right (voice s) [*] dsp_buf s i)
    /\ (~ dsp_start <= i < dsp_end ->
        dsp_left_buf s' i = dsp_left_buf s i /\ dsp_right_buf s' i = dsp_right_buf s i).
Proof.
  intros dsp_start dsp_end s i Hf Heq Hnz s'. subst s'.
  destruct (mixdown_channels dsp_start dsp_end s) as [El Er]. rewrite El, Er.
  assert (Hnz' : real_nonzero (amp_right (voice s)) = true) by (rewrite <- Heq; exact Hnz).
  unfold pan_stage. destruct (centered (voice s)).
  - destruct (centered_loop_spec dsp_start dsp_end s i) as [Hl Hr]. rewrite Hl, Hr.
    unfold centered_value, store_in_float. rewrite Hf, <- Heq.
    split; intro Hi; [rewrite in_block_true | rewrite in_block_false]; auto.
  - rewrite Hnz. cbn [voice set_left]. rewrite Hnz'.
    cbn [dsp_left_buf dsp_right_buf dsp_buf set_left set_right].
    rewrite !add_scaled_spec.
    split; intro Hi; [rewrite in_block_true | rewrite in_block_false]; auto.
Qed.

End MixdownFrame.

(** ** The whole block *)

Section WholeBlock.
Context {B : build}.
Variable T : interp_tables.
Variable dsp_data : Z -> Z.
Variable dsp_phase_incr : fluid_phase_t.
Variable dsp_amp_incr : fluid_real_t.
Local Open Scope real_scope.

Lemma interpolate_empty dsp_start dsp_end m s :
  dsp_end <= dsp_start ->
  interpolate T dsp_data dsp_start dsp_end dsp_phase_incr dsp_amp_incr m s = s.
Proof.
  intro H. unfold interpolate.
  destruct (fast_path dsp_phase_incr s); apply for_range_empty; exact H.
Qed.

Lemma mixdown_empty dsp_start dsp_end s :
  dsp_end <= dsp_start ->
  let s' := mixdown dsp_start dsp_end s in
  dsp_left_buf s' = dsp_left_buf s /\ dsp_right_buf s' = dsp_right_buf s
  /\ dsp_reverb_buf s' = dsp_reverb_buf s /\ dsp_chorus_buf s' = dsp_chorus_buf s.
Proof.
  intros H s'. subst s'.
  destruct (mixdown_channels dsp_start dsp_end s) as [El Er].
  destruct (mixdown_sends dsp_start dsp_end s) as [Ev Ec].
  destruct (pan_stage_channels dsp_start dsp_end s) as [Pl Pr].
  rewrite El, Er, Ev, Ec, Pl, Pr.
  unfold pan_left_result, pan_right_result, send, add_scaled.
  repeat split.
  - destruct (centered (voice s)); [now apply for_range_empty|].
    destruct (real_nonzero (amp_left (voice s))); [now apply for_range_empty|reflexivity].
  - destruct (centered (voice s)); [now apply for_range_empty|].
    destruct (real_nonzero (amp_right (voice s))); [now apply for_range_empty|reflexivity].
  - destruct (dsp_reverb_buf s); [|reflexivity].
    destruct (real_nonzero (amp_reverb (voice s))); [|reflexivity].
    f_equal. now apply for_range_empty.
  - destruct (dsp_chorus_buf s); [|reflexivity].
    destruct (real_nonzero (amp_chorus (voice s))); [|reflexivity].
    f_equal. now apply for_range_empty.
Qed.

(** A call on an empty block ([dsp_end <= dsp_start]) runs no loop: the
    signal buffer, the four destination buffers, the phase, the amplitude,
    the filter coefficients and the count are as before.  (With the filter
    enabled [dsp_hist1] still goes through zap_almost_zero.) *)
Theorem empty_block_changes_no_buffer :
  forall (dsp_start dsp_end dsp_interp_method : Z) (dsp_use_filter_flag : bool)
         (s s' : dsp_vars),
    dsp_end <= dsp_start ->
    fluid_dsp_core T dsp_data dsp_start dsp_end dsp_phase_incr dsp_amp_incr
      dsp_interp_method dsp_use_filter_flag s = Some s' ->
    dsp_buf s' = dsp_buf s
    /\ dsp_left_buf s' = dsp_left_buf s /\ dsp_right_buf s' = dsp_right_buf s
    /\ dsp_reverb_buf s' = dsp_reverb_buf s /\ dsp_chorus_buf s' = dsp_chorus_buf s
    /\ dsp_phase s' = dsp_phase s /\ dsp_amp s' = dsp_amp s
    /\ dsp_hist2 s' = dsp_hist2 s
    /\ dsp_a1 s' = dsp_a1 s /\ dsp_a2 s' = dsp_a2 s
    /\ dsp_b02 s' = dsp_b02 s /\ dsp_b1 s' = dsp_b1 s
    /\ dsp_filter_coeff_incr_count s' = dsp_filter_coeff_incr_count s.
Proof.
  intros dsp_start dsp_end m flag s s' Hempty Hrun.
  unfold fluid_dsp_core in Hrun. rewrite interpolate_empty in Hrun by exact Hempty.
  destruct (filter dsp_start dsp_end flag s) as [t|] eqn:Hf; [|discriminate].
  injection Hrun as <-.
  assert (Ht : dsp_buf t = dsp_buf s
               /\ dsp_left_buf t = dsp_left_buf s /\ dsp_right_buf t = dsp_right_buf s
               /\ dsp_reverb_buf t = dsp_reverb_buf s /\ dsp_chorus_buf t = dsp_chorus_buf s
               /\ dsp_phase t = dsp_phase s /\ dsp_amp t = dsp_amp s
               /\ dsp_hist2 t = dsp_hist2 s
               /\ dsp_a1 t = dsp_a1 s /\ dsp_a2 t = dsp_a2 s
               /\ dsp_b02 t = dsp_b02 s /\ dsp_b1 t = dsp_b1 s
               /\ dsp_filter_coeff_incr_count t = dsp_filter_coeff_incr_count s).
  { destruct (filter_result dsp_start dsp_end flag s t Hf) as [[_ ->]|[_ [h [_ ->]]]].
    - repeat split.
    - unfold filter_loops. rewrite !for_range_empty by exact Hempty.
      destruct (0 <? dsp_filter_coeff_incr_count (set_hist1 s h)); repeat split. }
  destruct (mixdown_empty dsp_start dsp_end t Hempty) as [Ml [Mr [Mv Mc]]].
  pose proof (mixdown_keeps dsp_start dsp_end t) as Mk. cbv zeta in Mk.
  destruct Mk as [Kb [_ [Kp [Ka [_ [K2 [Ka1 [Ka2 [Kb02 [Kb1 Kc]]]]]]]]]].
  destruct Ht as [Hb [Hl [Hr [Hv [Hc [Hp [Ha [H2 [Ha1 [Ha2 [Hb02 [Hb1 Hcnt]]]]]]]]]]]].
  rewrite Kb, Ml, Mr, Mv, Mc, Kp, Ka, K2, Ka1, Ka2, Kb02, Kb1, Kc.
  repeat split; assumption.
Qed.

(** The three stages composed, filter off: on the path of lines 95-109,
    with the pan outside the centered zone and a left gain that is not
    zero, the call returns and the k-th cell of the block in the left
    buffer has received amp_left times the amplitude current at that
    sample times the raw sample. *)
Theorem unfiltered_unit_pitch_reaches_left_buffer :
  forall (dsp_start dsp_end dsp_interp_method : Z) (s : dsp_vars) (k : Z),
    fluid_phase_fract (dsp_phase s) = 0 ->
    fluid_phase_fract dsp_phase_incr = 0 ->
    fluid_phase_index dsp_phase_incr = 1 ->
    INT_MIN <= fluid_phase_index (dsp_phase s) <= INT_MAX ->
    centered (voice s) = false ->
    real_nonzero (amp_left (voice s)) = true ->
    0 <= k < dsp_end - dsp_start ->
    exists s',
      fluid_dsp_core T dsp_data dsp_start dsp_end dsp_phase_incr dsp_amp_incr
        dsp_interp_method false s = Some s'
      /\ dsp_left_buf s' (dsp_start + k)
         = dsp_left_buf s (dsp_start + k)
           [+] amp_left (voice s)
               [*] (accumulate dsp_amp_incr (dsp_amp s) (Z.to_nat k)
                    [*] real_of_int
                          (dsp_data (sint32 (fluid_phase_index (dsp_phase s) + k)))).
Proof.
  intros dsp_start dsp_end m s k Hp Hf Hi Hr Hc Hnz Hk.
  unfold fluid_dsp_core, filter.
  set (t := interpolate T dsp_data dsp_start dsp_end dsp_phase_incr dsp_amp_incr m s).
  exists (mixdown dsp_start dsp_end t). split; [reflexivity|].
  pose proof (interpolate_keeps T dsp_data dsp_phase_incr dsp_amp_incr dsp_start dsp_end m s)
    as K. cbv zeta in K. fold t in K.
  destruct K as [_ [_ [_ [_ [_ [_ [_ [Kv [Kl _]]]]]]]]].
  destruct (mixdown_channels dsp_start dsp_end t) as [El _].
  destruct (pan_stage_channels dsp_start dsp_end t) as [Pl _].
  rewrite El, Pl, Kv, Kl. unfold pan_left_result. rewrite Hc, Hnz.
  rewrite add_scaled_spec, in_block_true by lia.
  f_equal. f_equal.
  subst t. unfold interpolate, fast_path. rewrite Hp, Hf, Hi.
  change ((0 =? 0) && (0 =? 0) && (1 =? 1)) with true. cbv iota.
  unfold for_range.
  replace (dsp_start + k) with (dsp_start + Z.of_nat (Z.to_nat k)) by lia.
  rewrite (loop_output _ _ (fast_body_stores dsp_data dsp_amp_incr)) by lia.
  cbv beta.
  rewrite fast_loop_amp, fast_loop_phase, plusplus_index by exact Hr.
  rewrite Z2Nat.id by lia. reflexivity.
Qed.

End WholeBlock.

(** ** No write outside the block *)

Section WholeBlockFrame.
Context {B : build}.
Variable T : interp_tables.
Variable dsp_data : Z -> Z.
Variable dsp_phase_incr : fluid_phase_t.
Variable dsp_amp_incr : fluid_real_t.
Variables dsp_start dsp_end : Z.
Local Open Scope real_scope.

Lemma for_range_store_outside (val : Z -> (Z -> fluid_real_t) -> fluid_real_t)
    (d : Z -> fluid_real_t) (i : Z) :
  ~ dsp_start <= i < dsp_end ->
  for_range dsp_start dsp_end (fun k d' => store d' k (val k d')) d i = d i.
Proof.
  intro Hi. unfold for_range.
  assert (H : forall n a, (i < a \/ a + Z.of_nat n <= i) ->
                for_loop (fun k d' => store d' k (val k d')) a n d i = d i).
  { induction n as [|n IH]; intros a Ha; [reflexivity|].
    rewrite for_loop_snoc. rewrite store_other by lia. apply IH. lia. }
  apply H. lia.
Qed.

Lemma pan_result_outside v buf d i :
  ~ dsp_start <= i < dsp_end ->
  pan_left_result dsp_start dsp_end v buf d i = d i
  /\ pan_right_result dsp_start dsp_end v buf d i = d i.
Proof.
  intro Hi. unfold pan_left_result, pan_right_result.
  destruct (centered v).
  - split;
      apply (for_range_store_outside
               (fun k d' => d' k [+] store_in_float (amp_left v [*] buf k))); exact Hi.
  - destruct (real_nonzero (amp_left v)), (real_nonzero (amp_right v));
      split; try reflexivity; rewrite add_scaled_spec, in_block_false by exact Hi;
      reflexivity.
Qed.

Lemma send_outside amp src dest i :
  ~ dsp_start <= i < dsp_end ->
  cell_of (send dsp_start dsp_end amp src dest) i = cell_of dest i.
Proof.
  intro Hi. unfold send. destruct dest as [d|]; [|reflexivity].
  destruct (real_nonzero amp); [|reflexivity].
  cbn [cell_of]. rewrite add_scaled_spec, in_block_false by exact Hi. reflexivity.
Qed.

(** A call writes inside the block only: whatever the method, the filter
    flag, the pan and the gains, every cell outside [dsp_start, dsp_end) of
    the signal buffer and of the left, right, reverb and chorus buffers is
    as before, and a NULL reverb or chorus buffer stays NULL. *)
Theorem fluid_dsp_core_writes_block_only :
  forall (dsp_interp_method : Z) (dsp_use_filter_flag : bool) (s s' : dsp_vars) (i : Z),
    ~ dsp_start <= i < dsp_end ->
    fluid_dsp_core T dsp_data dsp_start dsp_end dsp_phase_incr dsp_amp_incr
      dsp_interp_method dsp_use_filter_flag s = Some s' ->
    dsp_buf s' i = dsp_buf s i
    /\ dsp_left_buf s' i = dsp_left_buf s i /\ dsp_right_buf s' i = dsp_right_buf s i
    /\ cell_of (dsp_reverb_buf s') i = cell_of (dsp_reverb_buf s) i
    /\ cell_of (dsp_chorus_buf s') i = cell_of (dsp_chorus_buf s) i.
Proof.
  intros m flag s s' i Hi Hrun.
  unfold fluid_dsp_core in Hrun.
  set (t0 := interpolate T dsp_data dsp_start dsp_end dsp_phase_incr dsp_amp_incr m s) in *.
  destruct (filter dsp_start dsp_end flag t0) as [t|] eqn:Hf; [|discriminate].
  injection Hrun as <-.
  pose proof (interpolate_keeps T dsp_data dsp_phase_incr dsp_amp_incr dsp_start dsp_end m s)
    as K0. cbv zeta in K0. fold t0 in K0.
  destruct K0 as [_ [_ [_ [_ [_ [_ [_ [_ [Il [Ir [Iv Ic]]]]]]]]]]].
  assert (Ib : dsp_buf t0 i = dsp_buf s i).
  { subst t0. unfold interpolate, for_range.
    destruct (fast_path dsp_phase_incr s).
    - apply (loop_frame _ _ (fast_body_stores dsp_data dsp_amp_incr)). lia.
    - apply (loop_frame _ _ (interp_body_stores T dsp_data dsp_phase_incr dsp_amp_incr m)).
      lia. }
  destruct (filter_frame dsp_start dsp_end flag t0 t Hf) as [_ [_ [Fl [Fr [Fv [Fc Fb]]]]]].
  pose proof (mixdown_keeps dsp_start dsp_end t) as Mk. cbv zeta in Mk.
  destruct Mk as [Mb _].
  destruct (mixdown_channels dsp_start dsp_end t) as [Ml Mr].
  destruct (pan_stage_channels dsp_start dsp_end t) as [Pl Pr].
  destruct (mixdown_sends dsp_start dsp_end t) as [Mv Mc].
  destruct (pan_result_outside (voice t) (dsp_buf t) (dsp_left_buf t) i Hi) as [Ol _].
  destruct (pan_result_outside (voice t) (dsp_buf t) (dsp_right_buf t) i Hi) as [_ Or].
  repeat split.
  - rewrite Mb, (Fb i Hi). exact Ib.
  - rewrite Ml, Pl, Ol, Fl, Il. reflexivity.
  - rewrite Mr, Pr, Or, Fr, Ir. reflexivity.
  - rewrite Mv, send_outside by exact Hi. rewrite Fv, Iv. reflexivity.
  - rewrite Mc, send_outside by exact Hi. rewrite Fc, Ic. reflexivity.
Qed.

End WholeBlockFrame.

(** ** The further properties on concrete blocks *)

(** The sample built from the 16-bit part -2 and the byte 0x80 gives both
    back. *)
Lemma get_sample_parts_witness :
  Z.shiftr (fluid_rvoice_get_sample (fun _ => -2) (Some (fun _ => x80)) 0) 8 = -2
  /\ Z.land (fluid_rvoice_get_sample (fun _ => -2) (Some (fun _ => x80)) 0) 255
     = uint8_of_byte x80.
Proof.
  pose proof (get_sample_parts_are_recovered (fun _ => -2) (fun _ => x80) 0) as H.
  cbv zeta in H. destruct H as [H1 [H2 _]].
  - lia.
  - split; [exact H1 | exact H2].
Defined.

Section BlockExamples.
#[local] Existing Instance double_build.

(** A phase increment of half a sample over the table 10, 20, ..., 70:
    the fourth output of each method. *)
Lemma interp_linear_witness :
  let ph := phase_after {| index := 0; fract := 2147483648 |} {| index := 0; fract := 0 |}
              (Z.to_nat 3) in
  let row := interp_coeff_linear unit_tables (fluid_phase_fract_to_tablerow ph) in
  dsp_buf (interpolate unit_tables table_10_70 0 4 {| index := 0; fract := 2147483648 |}
             real_zero FLUID_INTERP_LINEAR (example_vars silence plain_voice None None)) (0 + 3)
  = real_mul (accumulate real_zero real_one (Z.to_nat 3))
      (real_add
         (real_mul (Coeff.a0 row) (real_of_int (table_10_70 (fluid_phase_index ph))))
         (real_mul (Coeff.a1 row) (real_of_int (table_10_70 (fluid_phase_index ph + 1))))).
Proof.
  apply (interp_linear_is_two_tap_sum unit_tables table_10_70 0 4
           {| index := 0; fract := 2147483648 |} real_zero
           (example_vars silence plain_voice None None) 3).
  - reflexivity.
  - lia.
Defined.

Lemma interp_4th_order_witness :
  let ph := phase_after {| index := 0; fract := 2147483648 |} {| index := 0; fract := 0 |}
              (Z.to_nat 3) in
  let row := interp_coeff unit_tables (fluid_phase_fract_to_tablerow ph) in
  let i := fluid_phase_index ph in
  dsp_buf (interpolate unit_tables table_10_70 0 4 {| index := 0; fract := 2147483648 |}
             real_zero FLUID_INTERP_4THORDER (example_vars silence plain_voice None None))
    (0 + 3)
  = real_mul (accumulate real_zero real_one (Z.to_nat 3))
      (real_add
         (real_add
            (real_add
               (real_mul (Coeff.a0 row) (real_of_int (table_10_70 i)))
               (real_mul (Coeff.a1 row) (real_of_int (table_10_70 (i + 1)))))
            (real_mul (Coeff.a2 row) (real_of_int (table_10_70 (i + 2)))))
         (real_mul (Coeff.a3 row) (real_of_int (table_10_70 (i + 3))))).
Proof.
  apply (interp_4th_order_is_four_tap_sum unit_tables table_10_70 0 4
           {| index := 0; fract := 2147483648 |} real_zero FLUID_INTERP_4THORDER
           (example_vars silence plain_voice None None) 3).
  - discriminate.
  - discriminate.
  - discriminate.
  - reflexivity.
  - lia.
Defined.

Lemma interp_7th_order_witness :
  let ph := phase_after {| index := 0; fract := 2147483648 |} {| index := 0; fract := 0 |}
              (Z.to_nat 3) in
  let col := fluid_phase_fract_to_tablerow ph in
  let i := fluid_phase_index ph in
  dsp_buf (interpolate unit_tables table_10_70 0 4 {| index := 0; fract := 2147483648 |}
             real_zero FLUID_INTERP_7THORDER (example_vars silence plain_voice None None))
    (0 + 3)
  = real_mul (accumulate real_zero real_one (Z.to_nat 3))
      (real_add (real_add (real_add (real_add (real_add (real_add
         (real_mul (sinc_table7 unit_tables 0 col) (real_of_int (table_10_70 i)))
         (real_mul (sinc_table7 unit_tables 1 col) (real_of_int (table_10_70 (i + 1)))))
         (real_mul (sinc_table7 unit_tables 2 col) (real_of_int (table_10_70 (i + 2)))))
         (real_mul (sinc_table7 unit_tables 3 col) (real_of_int (table_10_70 (i + 3)))))
         (real_mul (sinc_table7 unit_tables 4 col) (real_of_int (table_10_70 (i + 4)))))
         (real_mul (sinc_table7 unit_tables 5 col) (real_of_int (table_10_70 (i + 5)))))
         (real_mul (sinc_table7 unit_tables 6 col) (real_of_int (table_10_70 (i + 6))))).
Proof.
  apply (interp_7th_order_is_seven_tap_sum unit_tables table_10_70 0 4
           {| index := 0; fract := 2147483648 |} real_zero
           (example_vars silence plain_voice None None) 3).
  - reflexivity.
  - lia.
Defined.

(** Four samples at half-sample steps, rendered as two and two. *)
Lemma interpolate_two_pieces_witness :
  interpolate unit_tables table_10_70 2 4 {| index := 0; fract := 2147483648 |} real_zero
    FLUID_INTERP_LINEAR
    (interpolate unit_tables table_10_70 0 2 {| index := 0; fract := 2147483648 |} real_zero
       FLUID_INTERP_LINEAR (example_vars silence plain_voice None None))
  = interpolate unit_tables table_10_70 0 4 {| index := 0; fract := 2147483648 |} real_zero
      FLUID_INTERP_LINEAR (example_vars silence plain_voice None None).
Proof.
  apply (interpolate_in_two_pieces unit_tables table_10_70
           {| index := 0; fract := 2147483648 |} real_zero 0 2 4 FLUID_INTERP_LINEAR
           (example_vars silence plain_voice None None)).
  - lia.
  - cbn. lia.
Defined.

(** The gliding filter over three samples leaves the amplitude and the
    left buffer alone. *)
Lemma filter_frame_witness :
  dsp_amp (filter_loops 0 3 (set_hist1 glide real_zero)) = dsp_amp glide
  /\ dsp_left_buf (filter_loops 0 3 (set_hist1 glide real_zero)) = dsp_left_buf glide.
Proof.
  destruct (filter_keeps_phase_amp_and_destinations 0 3 true glide
              (filter_loops 0 3 (set_hist1 glide real_zero)))
    as [_ [Ha [Hl _]]].
  - reflexivity.
  - split; [exact Ha | exact Hl].
Defined.

(** The filter of the hard-left block, whose count is 0, keeps a1 and the
    count. *)
Lemma static_filter_witness :
  dsp_a1 (filter_loops 0 3 (set_hist1 hard_left real_zero)) = dsp_a1 hard_left
  /\ dsp_filter_coeff_incr_count (filter_loops 0 3 (set_hist1 hard_left real_zero))
     = dsp_filter_coeff_incr_count hard_left.
Proof.
  destruct (static_filter_keeps_coefficients_count_and_voice 0 3 hard_left
              (filter_loops 0 3 (set_hist1 hard_left real_zero)))
    as [H1 [_ [_ [_ [Hc _]]]]].
  - cbn. lia.
  - reflexivity.
  - split; [exact H1 | exact Hc].
Defined.

(** The gliding filter stores its coefficients in the voice and leaves
    the left gain and the increment of a1 there. *)
Lemma filter_voice_witness :
  amp_left (voice (filter_loops 0 3 (set_hist1 glide real_zero))) = amp_left (voice glide)
  /\ a1_incr (voice (filter_loops 0 3 (set_hist1 glide real_zero))) = a1_incr (voice glide).
Proof.
  destruct (filter_keeps_pan_gains_and_increments 0 3 true glide
              (filter_loops 0 3 (set_hist1 glide real_zero)))
    as [_ [Hl [_ [_ [_ [Hi _]]]]]].
  - reflexivity.
  - split; [exact Hl | exact Hi].
Defined.

(** A silent block through the filter with a1 = 1, a2 = 0, b02 = 1,
    b1 = 0. *)
Lemma static_silence_witness :
  exists s', filter 0 4 true (example_vars silence plain_voice None None) = Some s'
    /\ (forall i, 0 <= i < 4 -> is_zero (dsp_buf s' i) = true)
    /\ is_zero (dsp_hist1 s') = true /\ is_zero (dsp_hist2 s') = true.
Proof.
  apply (static_filter_keeps_silence 0 4 (example_vars silence plain_voice None None)).
  - cbn. lia.
  - reflexivity.
  - reflexivity.
  - reflexivity.
  - reflexivity.
  - reflexivity.
  - reflexivity.
  - intros i _. reflexivity.
Defined.

(** The hard-left block mixed as two and two. *)
Lemma mixdown_two_pieces_witness :
  dsp_left_buf (mixdown 2 4 (mixdown 0 2 hard_left)) = dsp_left_buf (mixdown 0 4 hard_left)
  /\ dsp_right_buf (mixdown 2 4 (mixdown 0 2 hard_left))
     = dsp_right_buf (mixdown 0 4 hard_left)
  /\ dsp_reverb_buf (mixdown 2 4 (mixdown 0 2 with_reverb))
     = dsp_reverb_buf (mixdown 0 4 with_reverb).
Proof.
  destruct (mixdown_in_two_pieces 0 2 4 hard_left) as [Hl [Hr _]]; [lia|].
  destruct (mixdown_in_two_pieces 0 2 4 with_reverb) as [_ [_ [Hv _]]]; [lia|].
  split; [exact Hl|]. split; [exact Hr | exact Hv].
Defined.

(** An empty block at index 4, filter on, over the gliding voice. *)
Lemma empty_block_witness :
  let s' := mixdown 4 4 (filter_loops 4 4 (set_hist1 glide real_zero)) in
  dsp_buf s' = dsp_buf glide /\ dsp_left_buf s' = dsp_left_buf glide
  /\ dsp_amp s' = dsp_amp glide /\ dsp_a1 s' = dsp_a1 glide.
Proof.
  intro s'.
  destruct (empty_block_changes_no_buffer unit_tables table_10_70
              {| index := 1; fract := 0 |} real_half_ulp 4 4 FLUID_INTERP_LINEAR true
              glide s')
    as [Hb [Hl [_ [_ [_ [_ [Ha [_ [H1 _]]]]]]]]].
  - lia.
  - reflexivity.
  - repeat split; assumption.
Defined.

(** The hard-left block at unit pitch, filter off: cell 2 of the left
    buffer. *)
Lemma unfiltered_unit_pitch_witness :
  exists s',
    fluid_dsp_core unit_tables table_10_70 0 4 {| index := 1; fract := 0 |} real_zero
      FLUID_INTERP_4THORDER false hard_left = Some s'
    /\ dsp_left_buf s' (0 + 2)
       = real_add (dsp_left_buf hard_left (0 + 2))
           (real_mul (amp_left (voice hard_left))
              (real_mul (accumulate real_zero (dsp_amp hard_left) (Z.to_nat 2))
                 (real_of_int
                    (table_10_70 (sint32 (fluid_phase_index (dsp_phase hard_left) + 2)))))).
Proof.
  apply (unfiltered_unit_pitch_reaches_left_buffer unit_tables table_10_70
           {| index := 1; fract := 0 |} real_zero 0 4 FLUID_INTERP_4THORDER hard_left 2).
  - reflexivity.
  - reflexivity.
  - reflexivity.
  - cbn. unfold INT_MIN, INT_MAX. lia.
  - reflexivity.
  - reflexivity.
  - lia.
Defined.

(** A block of four samples with the filter and a reverb send on: cell 5
    of each buffer. *)
Lemma writes_block_only_witness :
  let s' := mixdown 0 4
              (filter_loops 0 4
                 (set_hist1
                    (interpolate unit_tables table_10_70 0 4 {| index := 1; fract := 0 |}
                       real_zero FLUID_INTERP_LINEAR with_reverb) real_zero)) in
  dsp_buf s' 5 = dsp_buf with_reverb 5
  /\ dsp_left_buf s' 5 = dsp_left_buf with_reverb 5
  /\ cell_of (dsp_reverb_buf s') 5 = cell_of (dsp_reverb_buf with_reverb) 5
  /\ cell_of (dsp_chorus_buf s') 5 = cell_of (dsp_chorus_buf with_reverb) 5.
Proof.
  intro s'.
  destruct (fluid_dsp_core_writes_block_only unit_tables table_10_70
              {| index := 1; fract := 0 |} real_zero 0 4 FLUID_INTERP_LINEAR true
              with_reverb s' 5)
    as [Hb [Hl [_ [Hv Hc]]]].
  - lia.
  - reflexivity.
  - repeat split; assumption.
Defined.

End BlockExamples.

Section FloatBlockExamples.
#[local] Existing Instance float_build.

(** Float build, gains 1 and 1, with the pan at 500 and at 0: index 1 of
    each buffer receives its gain times the signal. *)
Lemma equal_gains_witness :
  dsp_left_buf (mixdown 0 4 glide_float) 1
  = real_add (dsp_left_buf glide_float 1)
      (real_mul (amp_left (voice glide_float)) (dsp_buf glide_float 1))
  /\ dsp_right_buf (mixdown 0 4 glide_float) 1
     = real_add (dsp_right_buf glide_float 1)
         (real_mul (amp_right (voice glide_float)) (dsp_buf glide_float 1)).
Proof.
  destruct (equal_gains_mix_alike_whatever_the_pan 0 4 glide_float 1) as [H _].
  - reflexivity.
  - reflexivity.
  - reflexivity.
  - apply H. lia.
Defined.

(** A reverb buffer and a chorus buffer with gains of zero. *)
Lemma zero_gain_send_witness :
  dsp_reverb_buf (mixdown 0 4 (example_vars ramp plain_voice (Some silence) (Some silence)))
  = Some silence
  /\ dsp_chorus_buf (mixdown 0 4 (example_vars ramp plain_voice (Some silence) (Some silence)))
     = Some silence.
Proof.
  destruct (zero_gain_send_is_skipped 0 4
              (example_vars ramp plain_voice (Some silence) (Some silence))) as [Hv Hc].
  split; [apply Hv | apply Hc]; reflexivity.
Defined.

End FloatBlockExamples.

(** ** What a call returns *)

Section WholeBlockResult.
Context {B : build}.
Variable T : interp_tables.
Variable dsp_data : Z -> Z.
Variable dsp_phase_incr : fluid_phase_t.
Variable dsp_amp_incr : fluid_real_t.
Variables dsp_start dsp_end : Z.
Local Open Scope real_scope.

Lemma interpolate_amp_and_phase m s :
  let N := Z.to_nat (dsp_end - dsp_start) in
  let s' := interpolate T dsp_data dsp_start dsp_end dsp_phase_incr dsp_amp_incr m s in
  dsp_amp s' = accumulate dsp_amp_incr (dsp_amp s) N
  /\ dsp_phase s' = phase_after dsp_phase_incr (dsp_phase s) N.
Proof.
  cbv zeta. unfold interpolate, for_range.
  destruct (fast_path dsp_phase_incr s) eqn:Hfast.
  - unfold fast_path in Hfast.
    apply andb_true_iff in Hfast. destruct Hfast as [Hfast Hi].
    apply andb_true_iff in Hfast. destruct Hfast as [Hp Hf].
    apply Z.eqb_eq in Hp, Hf, Hi.
    split.
    + apply fast_loop_amp.
    + rewrite fast_loop_phase. apply plusplus_iter; assumption.
  - split.
    + apply interp_loop_amp.
    + apply interp_loop_phase.
Qed.

(** The amplitude and the phase a call hands back are those at the end of
    the block, with the filter on or off and whatever is mixed: the
    amplitude after one addition of dsp_amp_incr per sample, the phase
    after one increment per sample. *)
Theorem fluid_dsp_core_returns_end_of_block_amp_and_phase :
  forall (dsp_interp_method : Z) (dsp_use_filter_flag : bool) (s s' : dsp_vars),
    fluid_dsp_core T dsp_data dsp_start dsp_end dsp_phase_incr dsp_amp_incr
      dsp_interp_method dsp_use_filter_flag s = Some s' ->
    dsp_amp s' = accumulate dsp_amp_incr (dsp_amp s) (Z.to_nat (dsp_end - dsp_start))
    /\ dsp_phase s'
       = phase_after dsp_phase_incr (dsp_phase s) (Z.to_nat (dsp_end - dsp_start)).
Proof.
  intros m flag s s' Hrun.
  unfold fluid_dsp_core in Hrun.
  set (t0 := interpolate T dsp_data dsp_start dsp_end dsp_phase_incr dsp_amp_incr m s) in *.
  destruct (filter dsp_start dsp_end flag t0) as [t|] eqn:Hf; [|discriminate].
  injection Hrun as <-.
  pose proof (mixdown_keeps dsp_start dsp_end t) as Mk. cbv zeta in Mk.
  destruct Mk as [_ [_ [Mp [Ma _]]]].
  destruct (filter_frame dsp_start dsp_end flag t0 t Hf) as [Fp [Fa _]].
  pose proof (interpolate_amp_and_phase m s) as I. cbv zeta in I. fold t0 in I.
  destruct I as [Ia Ip].
  rewrite Ma, Mp, Fa, Fp. split; assumption.
Qed.

(** What is mixed is the signal the call leaves in [dsp_buf], with the
    gains the voice had on entry.  At an index of the block: off the
    centered zone a left or right gain that is not zero adds gain times
    [dsp_buf[i]]; in the centered zone both channels receive amp_left times
    [dsp_buf[i]] as held in the variable [float v]; a send with a buffer
    and a gain that is not zero adds its gain times [dsp_buf[i]]. *)
Theorem fluid_dsp_core_mixes_the_signal_it_leaves :
  forall (dsp_interp_method : Z) (dsp_use_filter_flag : bool) (s s' : dsp_vars) (i : Z),
    dsp_start <= i < dsp_end ->
    fluid_dsp_core T dsp_data dsp_start dsp_end dsp_phase_incr dsp_amp_incr
      dsp_interp_method dsp_use_filter_flag s = Some s' ->
    (centered (voice s) = false -> real_nonzero (amp_left (voice s)) = true ->
     dsp_left_buf s' i = dsp_left_buf s i [+] amp_left (voice s) [*] dsp_buf s' i)
    /\ (centered (voice s) = false -> real_nonzero (amp_right (voice s)) = true ->
        dsp_right_buf s' i = dsp_right_buf s i [+] amp_right (voice s) [*] dsp_buf s' i)
    /\ (centered (voice s) = true ->
        dsp_left_buf s' i
        = dsp_left_buf s i [+] store_in_float (amp_left (voice s) [*] dsp_buf s' i)
        /\ dsp_right_buf s' i
           = dsp_right_buf s i [+] store_in_float (amp_left (voice s) [*] dsp_buf s' i))
    /\ (forall d, dsp_reverb_buf s = Some d -> real_nonzero (amp_reverb (voice s)) = true ->
        cell_of (dsp_reverb_buf s') i
        = Some (d i [+] amp_reverb (voice s) [*] dsp_buf s' i))
    /\ (forall d, dsp_chorus_buf s = Some d -> real_nonzero (amp_chorus (voice s)) = true ->
        cell_of (dsp_chorus_buf s') i
        = Some (d i [+] amp_chorus (voice s) [*] dsp_buf s' i)).
Proof.
  intros m flag s s' i Hi Hrun.
  unfold fluid_dsp_core in Hrun.
  set (t0 := interpolate T dsp_data dsp_start dsp_end dsp_phase_incr dsp_amp_incr m s) in *.
  destruct (filter dsp_start dsp_end flag t0) as [t|] eqn:Hf; [|discriminate].
  injection Hrun as <-.
  pose proof (interpolate_keeps T dsp_data dsp_phase_incr dsp_amp_incr dsp_start dsp_end m s)
    as K0. cbv zeta in K0. fold t0 in K0.
  destruct K0 as [_ [_ [_ [_ [_ [_ [_ [Iv [Il [Ir [Irv Ich]]]]]]]]]]].
  destruct (filter_frame dsp_start dsp_end flag t0 t Hf) as [_ [_ [Fl [Fr [Frv [Fch _]]]]]].
  destruct (filter_keeps_mixer_parameters dsp_start dsp_end flag t0 t Hf)
    as [Vp [Vl [Vr [Vrv [Vch _]]]]].
  rewrite Iv in Vp, Vl, Vr, Vrv, Vch.
  assert (Vc : centered (voice t) = centered (voice s))
    by (unfold centered; rewrite Vp; reflexivity).
  pose proof (mixdown_keeps dsp_start dsp_end t) as Mk. cbv zeta in Mk.
  destruct Mk as [Mb _]. rewrite Mb.
  destruct (mixdown_channels dsp_start dsp_end t) as [Ml Mr]. rewrite Ml, Mr.
  destruct (mixdown_sends dsp_start dsp_end t) as [Mv Mc]. rewrite Mv, Mc.
  rewrite Frv, Fch, Irv, Ich, Vrv, Vch.
  unfold pan_stage. rewrite Vc.
  split; [|split; [|split; [|split]]].
  - intros Hc Hnz. rewrite Hc, Vl, Hnz. cbn [voice set_left].
    destruct (real_nonzero (amp_right (voice t)));
      cbn [dsp_left_buf set_left set_right dsp_buf];
      rewrite add_scaled_spec, in_block_true, Fl, Il by exact Hi; reflexivity.
  - intros Hc Hnz. rewrite Hc.
    destruct (real_nonzero (amp_left (voice t)));
      cbn [voice set_left]; rewrite Vr, Hnz;
      cbn [dsp_right_buf set_left set_right dsp_buf];
      rewrite add_scaled_spec, in_block_true, Fr, Ir by exact Hi; reflexivity.
  - intro Hc. rewrite Hc.
    destruct (centered_loop_spec dsp_start dsp_end t i) as [Hl Hr]. rewrite Hl, Hr.
    rewrite in_block_true by exact Hi. unfold centered_value.
    rewrite Vl, Fl, Fr, Il, Ir. split; reflexivity.
  - intros d Hd Hnz. rewrite Hd. unfold send. rewrite Hnz. cbn [cell_of].
    rewrite add_scaled_spec, in_block_true by exact Hi. reflexivity.
  - intros d Hd Hnz. rewrite Hd. unfold send. rewrite Hnz. cbn [cell_of].
    rewrite add_scaled_spec, in_block_true by exact Hi. reflexivity.
Qed.

End WholeBlockResult.

Section ResultExamples.
#[local] Existing Instance double_build.

(** Three samples of the gliding voice, filter on. *)
Lemma end_of_block_witness :
  let s' := mixdown 0 3
              (filter_loops 0 3
                 (set_hist1
                    (interpolate unit_tables table_10_70 0 3 {| index := 1; fract := 0 |}
                       d_tenth FLUID_INTERP_LINEAR glide) real_zero)) in
  dsp_amp s' = accumulate d_tenth (dsp_amp glide) (Z.to_nat (3 - 0))
  /\ dsp_phase s'
     = phase_after {| index := 1; fract := 0 |} (dsp_phase glide) (Z.to_nat (3 - 0)).
Proof.
  intro s'.
  apply (fluid_dsp_core_returns_end_of_block_amp_and_phase unit_tables table_10_70
           {| index := 1; fract := 0 |} d_tenth 0 3 FLUID_INTERP_LINEAR true glide s').
  reflexivity.
Defined.

(** Four samples panned hard left with a reverb send of 0.5, filter on:
    cell 1 of the left and of the reverb buffer. *)
Lemma mixes_signal_witness :
  let s' := mixdown 0 4
              (filter_loops 0 4
                 (set_hist1
                    (interpolate unit_tables table_10_70 0 4 {| index := 1; fract := 0 |}
                       real_zero FLUID_INTERP_LINEAR with_reverb) real_zero)) in
  dsp_left_buf s' 1
  = real_add (dsp_left_buf with_reverb 1)
      (real_mul (amp_left (voice with_reverb)) (dsp_buf s' 1))
  /\ cell_of (dsp_reverb_buf s') 1
     = Some (real_add (silence 1) (real_mul (amp_reverb (voice with_reverb)) (dsp_buf s' 1))).
Proof.
  intro s'.
  destruct (fluid_dsp_core_mixes_the_signal_it_leaves unit_tables table_10_70
              {| index := 1; fract := 0 |} real_zero 0 4 FLUID_INTERP_LINEAR true
              with_reverb s' 1)
    as [Hl [_ [_ [Hv _]]]].
  - lia.
  - reflexivity.
  - split.
    + apply Hl; reflexivity.
    + apply (Hv silence); reflexivity.
Defined.

End ResultExamples.
